(** * Library manager of the encodarr controller

    A shallow embedding of [controller/library/manager.go]: the scheduler
    loop of [Manager.Start], the scan worker [Manager.updateLibraryQueue]
    and the job-dispatch entry points [PopNewJob] and
    [UpdateLibrarySettings].

    The manager talks to its collaborators through Go interfaces
    ([LibraryManagerDataStorer], [MetadataReader], [CommandDecider],
    [videoFileser], the logger).  The interfaces become type classes over an
    abstract state [World] of everything outside the manager; every method
    takes the world and returns its Go results together with the next world.
    What the manager does to the outside is recorded in a trace of events:
    one event per collaborator call, per log line and per [go] statement. *)

From Stdlib Require Import ZArith String Ascii List Lia.
From stdpp Require Import base option list gmap strings.

(** ** Package [time] *)

Module time.
Local Open Scope Z_scope.

(** An instant, in nanoseconds since the Unix epoch. *)
Definition Time := Z.

(** [time.Duration]: a signed 64-bit count of nanoseconds. *)
Definition Duration := Z.

Definition minDuration : Duration := - 2 ^ 63.
Definition maxDuration : Duration := 2 ^ 63 - 1.

Definition Nanosecond : Duration := 1.
Definition Second : Duration := 1000000000.

(** [time.Unix(sec, nsec)]. *)
Definition Unix (sec nsec : Z) : Time := sec * 1000000000 + nsec.

(** [t.Sub(u)]: the duration [t - u], saturated to the range of
    [Duration]. *)
Definition Sub (t u : Time) : Duration :=
  if maxDuration <? t - u then maxDuration
  else if t - u <? minDuration then minDuration
  else t - u.
End time.

(** ** Package [strings] *)

Module Strings.
(** [strings.HasPrefix(s, prefix)]. *)
Fixpoint HasPrefix (s prefix : string) {struct prefix} : bool :=
  match prefix with
  | EmptyString => true
  | String c prefix' =>
      match s with
      | EmptyString => false
      | String d s' => if Ascii.eqb c d then HasPrefix s' prefix' else false
      end
  end.

(** [strings.Contains(s, substr)]: [substr] occurs in [s] at some
    offset. *)
Fixpoint Contains (s substr : string) : bool :=
  HasPrefix s substr ||
  match s with
  | EmptyString => false
  | String _ s' => Contains s' substr
  end.

(** What "the path contains the substring" means. *)
Definition occursIn (substr s : string) : Prop :=
  exists pre post : string, s = String.append pre (String.append substr post).
End Strings.

(** Go's [error]: [None] is [nil], [Some msg] an error whose [Error()] is
    [msg]. *)
Definition error := option string.

(** ** State passing

    The manager's methods mutate the manager and call out to the world; they
    are written in a state monad over the manager record. *)

Definition State (S A : Type) : Type := S -> A * S.

Global Instance State_ret {S} : MRet (State S) := fun A (a : A) s => (a, s).

Global Instance State_bind {S} : MBind (State S) :=
  fun A B (k : A -> State S B) (c : State S A) s => let (a, s') := c s in k a s'.

Definition modify {S} (f : S -> S) : State S unit := fun s => (tt, f s).

(** A [for _, x := range xs] loop whose body updates a loop-carried
    value. *)
Fixpoint forRange {S A B} (body : A -> B -> State S B) (xs : list A) (b : B)
  : State S B :=
  match xs with
  | [] => mret b
  | x :: xs' => b' ← body x b; forRange body xs' b'
  end.

(** ** The logger *)

Inductive Level := Debug | Info | Error | Critical.

(** An argument of a format-string log call. *)
Inductive Arg :=
| ArgString (s : string)
| ArgInt (n : Z).

(** Every Go type has a zero value. *)
Class Zero (A : Type) := zero : A.

Section Library.
(** [controller.FileMetadata] and the type of
    [Library.CommandDeciderSettings] are declared outside this package and
    only passed along here. *)
Context {FileMetadata : Type} `{!Zero FileMetadata} {Settings : Type}.

(** The state of everything outside the manager: data store, file system,
    clock, UUID generator. *)
Context {World : Type}.

(** *** Package [controller]: jobs, queues, libraries *)

(** Modelled from the spec: [controller.Job] is not declared in this
    package; the fields are those the scan worker fills in (spec 3,
    Job). *)
Record Job := {
  UUID : string;
  Path : string;
  Command : list string;
  Metadata : FileMetadata;
}.

(** The zero value of [Job], what a bare [return] of a named result
    yields. *)
Definition zeroJob : Job :=
  {| UUID := ""; Path := ""; Command := []; Metadata := zero |}.

(** Modelled from the spec: [controller.LibraryQueue] is not declared in
    this package.  Spec 3: an ordered collection of Jobs that supports an
    existence check by path and ordered push (insertion order is
    preserved). *)
Definition LibraryQueue := list Job.

Definition Push (q : LibraryQueue) (item : Job) : LibraryQueue := q ++ [item].

Definition EqualPath (j i : Job) : bool := String.eqb (Path j) (Path i).

Definition InQueuePath (q : LibraryQueue) (item : Job) : bool :=
  existsb (EqualPath item) q.

(** Modelled from the spec: [controller.Library] is not declared in this
    package; the fields are those the manager reads, plus the priority of
    spec 3. *)
Record Library := {
  ID : Z;
  Folder : string;
  Priority : Z;
  FsCheckInterval : time.Duration;
  Queue : LibraryQueue;
  PathMasks : list string;
  CommandDeciderSettings : Settings;
}.

Definition withQueue (lib : Library) (q : LibraryQueue) : Library :=
  {| ID := ID lib; Folder := Folder lib; Priority := Priority lib;
     FsCheckInterval := FsCheckInterval lib; Queue := q;
     PathMasks := PathMasks lib;
     CommandDeciderSettings := CommandDeciderSettings lib |}.

(** *** The collaborators' interfaces *)

(** [controller.LibraryManagerDataStorer]. *)
Class LibraryManagerDataStorer := {
  Libraries : World -> (list Library * error) * World;
  SaveLibrary : Library -> World -> error * World;
  IsPathDispatched : string -> World -> (bool * error) * World;
}.

Class MetadataReader := {
  Read : string -> World -> (FileMetadata * error) * World;
}.

Class CommandDecider := {
  Decide : FileMetadata -> Settings -> World -> (list string * error) * World;
}.

Class videoFileser := {
  VideoFiles : string -> World -> (list string * error) * World;
}.

(** What the manager uses of the Go runtime and of the packages [time],
    [uuid] and [controller]: [time.Now()], [uuid.NewString()] and
    [controller.IsContextFinished(ctx)].  There is one clock: the wall
    clock and the monotonic clock of Go's [time.Time] are not told
    apart. *)
Class Runtime := {
  Now : World -> time.Time * World;
  NewString : World -> string * World;
  IsContextFinished : World -> bool * World;
}.

Context `{!LibraryManagerDataStorer, !MetadataReader, !CommandDecider,
          !videoFileser, !Runtime}.

(** *** Events *)

Inductive Event :=
| Logged (lvl : Level) (format : string) (args : list Arg)
| CallLibraries
| CallSaveLibrary (lib : Library)
| CallIsPathDispatched (path : string)
| CallRead (path : string)
| CallDecide (metadata : FileMetadata) (settings : Settings)
| CallVideoFiles (dir : string)
| Go (lib : Library)
| Sleep (d : time.Duration).

(** *** The manager *)

(** A worker started by [go m.updateLibraryQueue(ctx, wg, lib)].  The new
    goroutine shares the manager; what it is sure to find in the two maps
    is what was written before the [go] statement ran.  A [Launch] keeps the
    library passed to the worker and the two maps as they are at the
    statement. *)
Record Launch := {
  launchLib : Library;
  launchTimes : gmap Z time.Time;
  launchFlags : gmap Z bool;
}.

(** The struct [Manager].  Its interface-typed fields [logger], [ds],
    [metadataReader], [commandDecider] and [videoFileser] are the class
    instances above; [world] is their state and [trace] what has been
    asked of them so far; [launches] are the workers started so far. *)
Record Manager := {
  lastCheckedTimes : gmap Z time.Time;
  workerCompletedMap : gmap Z bool;
  world : World;
  trace : list Event;
  launches : list Launch;
}.

Definition NewManager (w : World) : Manager :=
  {| lastCheckedTimes := ∅; workerCompletedMap := ∅; world := w; trace := [];
     launches := [] |}.

Definition setLastChecked (id : Z) (t : time.Time) (m : Manager) : Manager :=
  {| lastCheckedTimes := <[id := t]> (lastCheckedTimes m);
     workerCompletedMap := workerCompletedMap m;
     world := world m; trace := trace m; launches := launches m |}.

Definition setWorkerCompleted (id : Z) (b : bool) (m : Manager) : Manager :=
  {| lastCheckedTimes := lastCheckedTimes m;
     workerCompletedMap := <[id := b]> (workerCompletedMap m);
     world := world m; trace := trace m; launches := launches m |}.

Definition setWorld (w : World) (m : Manager) : Manager :=
  {| lastCheckedTimes := lastCheckedTimes m;
     workerCompletedMap := workerCompletedMap m;
     world := w; trace := trace m; launches := launches m |}.

Definition record (evs : list Event) (m : Manager) : Manager :=
  {| lastCheckedTimes := lastCheckedTimes m;
     workerCompletedMap := workerCompletedMap m;
     world := world m; trace := trace m ++ evs; launches := launches m |}.

(** The manager once the world has moved on to [w] and [evs] have been
    recorded. *)
Definition advance (w : World) (evs : list Event) (m : Manager) : Manager :=
  {| lastCheckedTimes := lastCheckedTimes m;
     workerCompletedMap := workerCompletedMap m;
     world := w; trace := trace m ++ evs; launches := launches m |}.

Definition emit (e : Event) : State Manager unit := modify (record [e]).

(** [m.logger.<lvl>(format, args...)]. *)
Definition logger (lvl : Level) (format : string) (args : list Arg)
  : State Manager unit :=
  emit (Logged lvl format args).

(** A call of a collaborator's method: the event is recorded, the method
    runs on the world. *)
Definition call {A} (e : Event) (method : World -> A * World)
  : State Manager A :=
  fun m => let (a, w) := method (world m) in (a, setWorld w (record [e] m)).

(** [time.Now()] and [time.Since(t)], which is [time.Now().Sub(t)]. *)
Definition now : State Manager time.Time :=
  fun m => let (n, w) := Now (world m) in (n, setWorld w m).

Definition Since (t : time.Time) : State Manager time.Duration :=
  n ← now; mret (time.Sub n t).

(** [uuid.NewString()] and [controller.IsContextFinished(ctx)]. *)
Definition newString : State Manager string :=
  fun m => let (u, w) := NewString (world m) in (u, setWorld w m).

Definition contextFinished : State Manager bool :=
  fun m => let (b, w) := IsContextFinished (world m) in (b, setWorld w m).

(** *** The scan worker: [Manager.updateLibraryQueue] *)

(** The loop over [lib.PathMasks]: the first mask that the path
    contains, if any. *)
Definition maskedOutBy (videoFilepath : string) (masks : list string)
  : option string :=
  List.find (Strings.Contains videoFilepath) masks.

Definition pathJob (videoFilepath : string) : Job :=
  {| UUID := ""; Path := videoFilepath; Command := [];
     Metadata := zero |}.

(** The body of the loop over [discoveredVideos]; every [continue] ends
    the body with the local [lib] unchanged. *)
Definition processVideo (videoFilepath : string) (lib : Library)
  : State Manager Library :=
  match maskedOutBy videoFilepath (PathMasks lib) with
  | Some v =>
      logger Debug "%v skipped because of a mask (%v)"
        [ArgString videoFilepath; ArgString v];;
      mret lib
  | None =>
      '(pathDispatched, err) ←
        call (CallIsPathDispatched videoFilepath)
          (IsPathDispatched videoFilepath);
      match err with
      | Some e => logger Error e [];; mret lib
      | None =>
          if pathDispatched || InQueuePath (Queue lib) (pathJob videoFilepath)
          then mret lib
          else
            '(fMetadata, err) ← call (CallRead videoFilepath) (Read videoFilepath);
            match err with
            | Some e =>
                logger Error "Skipping %v because of error: %v"
                  [ArgString videoFilepath; ArgString e]
            | None => mret tt
            end;;
            '(commandSlice, err) ←
              call (CallDecide fMetadata (CommandDeciderSettings lib))
                (Decide fMetadata (CommandDeciderSettings lib));
            match err with
            | Some e =>
                logger Debug
                  "Skipping %v because CommandDecider returned error: %v"
                  [ArgString videoFilepath; ArgString e];;
                mret lib
            | None =>
                uuid ← newString;
                let job := {| UUID := uuid; Path := videoFilepath;
                              Command := commandSlice;
                              Metadata := fMetadata |} in
                let lib := withQueue lib (Push (Queue lib) job) in
                logger Info "Added %v to Library %v's queue"
                  [ArgString videoFilepath; ArgInt (ID lib)];;
                _ ← call (CallSaveLibrary lib) (SaveLibrary lib);
                mret lib
            end
      end
  end.

(** The log lines of the loop body and the job it builds. *)
Definition maskLog (videoFilepath v : string) : Event :=
  Logged Debug "%v skipped because of a mask (%v)"
    [ArgString videoFilepath; ArgString v].

(** The log line of a metadata read that returned the error [err]. *)
Definition readLog (videoFilepath : string) (err : error) : list Event :=
  match err with
  | Some e => [Logged Error "Skipping %v because of error: %v"
                 [ArgString videoFilepath; ArgString e]]
  | None => []
  end.

Definition newJob (uuid videoFilepath : string) (commandSlice : list string)
  (fMetadata : FileMetadata) : Job :=
  {| UUID := uuid; Path := videoFilepath; Command := commandSlice;
     Metadata := fMetadata |}.

(** The ways through the loop body.  [videoOutcome videoFilepath lib m r]
    lists, for each of them, what the collaborators answered and the
    result [r] of the body: the local [lib] and the manager. *)
Inductive videoOutcome (videoFilepath : string) (lib : Library) (m : Manager)
  : Library * Manager -> Prop :=
| video_masked v :
    maskedOutBy videoFilepath (PathMasks lib) = Some v ->
    videoOutcome videoFilepath lib m
      (lib, advance (world m) [maskLog videoFilepath v] m)
| video_dispatch_error b e w :
    maskedOutBy videoFilepath (PathMasks lib) = None ->
    IsPathDispatched videoFilepath (world m) = ((b, Some e), w) ->
    videoOutcome videoFilepath lib m
      (lib, advance w [CallIsPathDispatched videoFilepath; Logged Error e []] m)
| video_filtered b w :
    maskedOutBy videoFilepath (PathMasks lib) = None ->
    IsPathDispatched videoFilepath (world m) = ((b, None), w) ->
    b || InQueuePath (Queue lib) (pathJob videoFilepath) = true ->
    videoOutcome videoFilepath lib m
      (lib, advance w [CallIsPathDispatched videoFilepath] m)
| video_declined w1 fMetadata rerr w2 commandSlice e w3 :
    maskedOutBy videoFilepath (PathMasks lib) = None ->
    IsPathDispatched videoFilepath (world m) = ((false, None), w1) ->
    InQueuePath (Queue lib) (pathJob videoFilepath) = false ->
    Read videoFilepath w1 = ((fMetadata, rerr), w2) ->
    Decide fMetadata (CommandDeciderSettings lib) w2 =
      ((commandSlice, Some e), w3) ->
    videoOutcome videoFilepath lib m
      (lib,
       advance w3
         ([CallIsPathDispatched videoFilepath; CallRead videoFilepath]
          ++ readLog videoFilepath rerr
          ++ [CallDecide fMetadata (CommandDeciderSettings lib);
              Logged Debug
                "Skipping %v because CommandDecider returned error: %v"
                [ArgString videoFilepath; ArgString e]]) m)
| video_enqueued w1 fMetadata rerr w2 commandSlice w3 uuid w4 serr w5 :
    maskedOutBy videoFilepath (PathMasks lib) = None ->
    IsPathDispatched videoFilepath (world m) = ((false, None), w1) ->
    InQueuePath (Queue lib) (pathJob videoFilepath) = false ->
    Read videoFilepath w1 = ((fMetadata, rerr), w2) ->
    Decide fMetadata (CommandDeciderSettings lib) w2 =
      ((commandSlice, None), w3) ->
    NewString w3 = (uuid, w4) ->
    SaveLibrary
      (withQueue lib
         (Push (Queue lib) (newJob uuid videoFilepath commandSlice fMetadata)))
      w4 = (serr, w5) ->
    videoOutcome videoFilepath lib m
      (withQueue lib
         (Push (Queue lib) (newJob uuid videoFilepath commandSlice fMetadata)),
       advance w5
         ([CallIsPathDispatched videoFilepath; CallRead videoFilepath]
          ++ readLog videoFilepath rerr
          ++ [CallDecide fMetadata (CommandDeciderSettings lib);
              Logged Info "Added %v to Library %v's queue"
                [ArgString videoFilepath; ArgInt (ID lib)];
              CallSaveLibrary
                (withQueue lib
                   (Push (Queue lib)
                      (newJob uuid videoFilepath commandSlice fMetadata)))])
         m).

(** [updateLibraryQueue]; the result is the final value of the local
    [lib].  The deferred function runs on every way out. *)
Definition updateLibraryQueue (lib : Library) : State Manager Library :=
  lib' ←
    ('(discoveredVideos, err) ←
       call (CallVideoFiles (Folder lib)) (VideoFiles (Folder lib));
     match err with
     | Some e => logger Error e [];; mret lib
     | None => forRange processVideo discoveredVideos lib
     end);
  modify (setWorkerCompleted (ID lib) true);;
  mret lib'.

(** *** The scheduler loop: [Manager.Start] *)

(** [t, ok := m.lastCheckedTimes[lib.ID]] and the initialisation that
    follows it. *)
Definition lookupLastChecked (id : Z) : State Manager time.Time :=
  fun m =>
    match lastCheckedTimes m !! id with
    | Some t => (t, m)
    | None => (time.Unix 0 0, setLastChecked id (time.Unix 0 0) m)
    end.

Definition lookupWorkerCompleted (id : Z) : State Manager bool :=
  fun m =>
    match workerCompletedMap m !! id with
    | Some b => (b, m)
    | None => (true, setWorkerCompleted id true m)
    end.

(** The values the loop body works with: the entry of the map, or the
    default it installs when there is none. *)
Definition lastChecked (m : Manager) (id : Z) : time.Time :=
  default (time.Unix 0 0) (lastCheckedTimes m !! id).

Definition workerCompleted (m : Manager) (id : Z) : bool :=
  default true (workerCompletedMap m !! id).

(** A library the loop has not met has an entry in neither map: where
    [lastCheckedTimes] has none, [workerCompletedMap] has none. *)
Definition neverSeenInBoth (m : Manager) : Prop :=
  forall id : Z,
    lastCheckedTimes m !! id = None -> workerCompletedMap m !! id = None.

Definition initiateLog (lib : Library) : Event :=
  Logged Debug "Initiating library (ID: %v) update" [ArgInt (ID lib)].

(** [go m.updateLibraryQueue(ctx, wg, lib)]: the statement is recorded in
    the trace, and the worker in [launches] with the maps as they are
    now. *)
Definition goUpdateLibraryQueue (lib : Library) : State Manager unit :=
  fun m =>
    (tt,
     {| lastCheckedTimes := lastCheckedTimes m;
        workerCompletedMap := workerCompletedMap m;
        world := world m; trace := trace m ++ [Go lib];
        launches :=
          launches m ++ [{| launchLib := lib;
                            launchTimes := lastCheckedTimes m;
                            launchFlags := workerCompletedMap m |}] |}).

(** The body of the loop over [allLibraries]. *)
Definition checkLibrary (lib : Library) : State Manager unit :=
  t ← lookupLastChecked (ID lib);
  previousWorkerFinished ← lookupWorkerCompleted (ID lib);
  elapsed ← Since t;
  if (FsCheckInterval lib <? elapsed)%Z && previousWorkerFinished then
    logger Debug "Initiating library (ID: %v) update" [ArgInt (ID lib)];;
    n ← now;
    modify (setLastChecked (ID lib) n);;
    modify (setWorkerCompleted (ID lib) false);;
    goUpdateLibraryQueue lib
  else mret tt.

Definition checkLibraries (allLibraries : list Library) : State Manager unit :=
  forRange (fun lib _ => checkLibrary lib) allLibraries tt.

(** One iteration of the scheduler loop, after the context check. *)
Definition tick : State Manager unit :=
  '(allLibraries, err) ← call CallLibraries Libraries;
  match err with
  | Some e =>
      logger Error "%v" [ArgString e];;
      emit (Sleep time.Second)
  | None =>
      checkLibraries allLibraries;;
      emit (Sleep time.Second)
  end.

(** The goroutine of [Start]: it loops until the context is finished;
    [ticks] bounds the iterations that are followed. *)
Fixpoint Start (ticks : nat) : State Manager unit :=
  match ticks with
  | O => mret tt
  | S ticks' =>
      contextFinished ≫= fun finished : bool =>
      if finished then mret tt else tick;; Start ticks'
  end.

(** *** The job-dispatch entry points *)

Definition PopNewJob : State Manager Job :=
  logger Critical "Not implemented" [];;
  mret zeroJob.

Definition UpdateLibrarySettings (_ : gmap Z Library) : State Manager unit :=
  logger Critical "Not implemented" [].

(** *** What the specification asks of the entry points

    The two definitions below follow the words of the specification
    (4.3 and 4.5), not the source; they are what [PopNewJob] and
    [UpdateLibrarySettings] are compared with. *)

(** Priority descending, ties broken by library ID ascending. *)
Definition servedBefore (a b : Library) : bool :=
  (Priority b <? Priority a)%Z ||
  ((Priority a =? Priority b)%Z && (ID a <=? ID b)%Z).

Fixpoint insertByPriority (lib : Library) (sorted : list Library)
  : list Library :=
  match sorted with
  | [] => [lib]
  | l :: sorted' =>
      if servedBefore lib l then lib :: l :: sorted'
      else l :: insertByPriority lib sorted'
  end.

Definition sortByPriority (libs : list Library) : list Library :=
  foldr insertByPriority [] libs.

(** The first job found when the sorted libraries are scanned in order
    and each queue in insertion order; [None] is the "no job available"
    signal. *)
Definition requiredPopNewJob (libs : list Library) : option Job :=
  head (concat (map Queue (sortByPriority libs))).

(** Every field of [new] but the ID and the queue. *)
Definition applySettings (old new : Library) : Library :=
  {| ID := ID old; Folder := Folder new; Priority := Priority new;
     FsCheckInterval := FsCheckInterval new; Queue := Queue old;
     PathMasks := PathMasks new;
     CommandDeciderSettings := CommandDeciderSettings new |}.

Definition requiredUpdateLibrarySettings (updates : gmap Z Library)
  (libs : list Library) : list Library :=
  map (fun lib => match updates !! ID lib with
                  | Some new => applySettings lib new
                  | None => lib
                  end) libs.

(** *** Scan rounds *)

Definition queuePaths (q : LibraryQueue) : list string := map Path q.

(** The events recorded between two states of the manager. *)
Definition eventsSince (m m' : Manager) : list Event :=
  drop (length (trace m)) (trace m').

(** The queues a library can have after any number of scan rounds that
    began with the queue [q0].  A round runs the worker on a snapshot of
    the library whose queue is one reached before, in any state of the
    manager and of the world; it reaches the queue the worker ends with
    and every queue the worker handed to [SaveLibrary] on the way. *)
Inductive scanRounds (q0 : LibraryQueue) : LibraryQueue -> Prop :=
| rounds_none : scanRounds q0 q0
| rounds_finished lib m :
    scanRounds q0 (Queue lib) ->
    scanRounds q0 (Queue (updateLibraryQueue lib m).1)
| rounds_saved lib m saved :
    scanRounds q0 (Queue lib) ->
    CallSaveLibrary saved ∈ eventsSince m (updateLibraryQueue lib m).2 ->
    scanRounds q0 (Queue saved).
End Library.

Arguments Job : clear implicits.
Arguments LibraryQueue : clear implicits.
Arguments Library : clear implicits.
Arguments Event : clear implicits.
Arguments Manager : clear implicits.
Arguments LibraryManagerDataStorer : clear implicits.
Arguments MetadataReader : clear implicits.
Arguments CommandDecider : clear implicits.
Arguments videoFileser : clear implicits.
Arguments Runtime : clear implicits.

(** ** The other entry points, and what a trace shows *)

Section Observations.
Context {FileMetadata : Type} `{!Zero FileMetadata} {Settings World : Type}.

(** [ImportCompletedJobs], [LibrarySettings] and [LibraryQueues]: each
    logs and returns; the named results [ls] and [lq] are never assigned,
    so that the nil slice is returned. *)
Definition ImportCompletedJobs (jobs : list (Job FileMetadata))
  : State (Manager FileMetadata Settings World) unit :=
  logger Critical "Not implemented" [].

Definition LibrarySettings
  : State (Manager FileMetadata Settings World)
      (list (Library FileMetadata Settings)) :=
  logger Critical "Not implemented" [];;
  mret [].

Definition LibraryQueues
  : State (Manager FileMetadata Settings World)
      (list (LibraryQueue FileMetadata)) :=
  logger Critical "Not implemented" [];;
  mret [].

(** [defaultVideoFileser]: its [VideoFiles] is [GetVideoFilesFromDir],
    which is declared in another file of the package and is a parameter
    here. *)
Definition defaultVideoFileser
  (GetVideoFilesFromDir : string -> World -> (list string * error) * World)
  : videoFileser World :=
  {| VideoFiles := GetVideoFilesFromDir |}.

(** A call of one of the five entry points of the job-dispatch API, its
    result dropped. *)
Inductive EntryCall :=
| EnterImportCompletedJobs (jobs : list (Job FileMetadata))
| EnterLibrarySettings
| EnterLibraryQueues
| EnterPopNewJob
| EnterUpdateLibrarySettings (updates : gmap Z (Library FileMetadata Settings)).

Definition enter (c : EntryCall)
  : State (Manager FileMetadata Settings World) unit :=
  match c with
  | EnterImportCompletedJobs jobs => ImportCompletedJobs jobs
  | EnterLibrarySettings => LibrarySettings;; mret tt
  | EnterLibraryQueues => LibraryQueues;; mret tt
  | EnterPopNewJob => PopNewJob;; mret tt
  | EnterUpdateLibrarySettings updates => UpdateLibrarySettings updates
  end.

Definition enterAll (cs : list EntryCall)
  : State (Manager FileMetadata Settings World) unit :=
  forRange (fun c _ => enter c) cs tt.

(** *** Reading a trace *)

(** The libraries of the [go] statements, in order. *)
Definition launchedLibraries (evs : list (Event FileMetadata Settings))
  : list (Library FileMetadata Settings) :=
  omap (fun e => match e with Go lib => Some lib | _ => None end) evs.

Definition launchedIDs (evs : list (Event FileMetadata Settings)) : list Z :=
  map ID (launchedLibraries evs).

(** The libraries handed to [SaveLibrary], in order. *)
Definition savedLibraries (evs : list (Event FileMetadata Settings))
  : list (Library FileMetadata Settings) :=
  omap (fun e => match e with CallSaveLibrary lib => Some lib | _ => None end)
    evs.

(** The paths asked of [IsPathDispatched], in order. *)
Definition dispatchQueries (evs : list (Event FileMetadata Settings))
  : list string :=
  omap (fun e => match e with CallIsPathDispatched p => Some p | _ => None end)
    evs.

(** The number of calls of [Libraries], and the sleeps. *)
Definition librariesCalls (evs : list (Event FileMetadata Settings)) : nat :=
  length (omap (fun e => match e with CallLibraries => Some tt | _ => None end)
            evs).

Definition sleeps (evs : list (Event FileMetadata Settings))
  : list time.Duration :=
  omap (fun e => match e with Sleep d => Some d | _ => None end) evs.

(** The path contains none of the library's masks. *)
Definition unmasked (lib : Library FileMetadata Settings)
  (videoFilepath : string) : bool :=
  match maskedOutBy videoFilepath (PathMasks lib) with
  | Some _ => false
  | None => true
  end.

(** The two maps of the manager have the same keys. *)
Definition sameKeys (m : Manager FileMetadata Settings World) : Prop :=
  forall id : Z,
    is_Some (lastCheckedTimes m !! id) <-> is_Some (workerCompletedMap m !! id).

(** The flag of a library is false exactly when a worker has been
    launched for it, and no library has been launched twice. *)
Definition oneWorkerEach (m : Manager FileMetadata Settings World) : Prop :=
  NoDup (launchedIDs (trace m)) /\
  forall id : Z,
    id ∈ launchedIDs (trace m) <-> workerCompletedMap m !! id = Some false.
End Observations.

(** ** An in-memory world

    A data store, file system, metadata reader, command decider, clock and
    UUID source held in one record, with switches that make single calls
    fail.  Metadata and command-decider settings are strings here. *)

Module Fixture.
Definition Lib := Library string string.

Record World := {
  clock : time.Time;
  libraries : list Lib;
  dispatched : list string;
  dispatchErrors : list string;
  files : list string;
  unreadable : list string;
  declined : list string;
  uuids : list string;
  saveError : error;
}.

Definition inList (x : string) (l : list string) : bool :=
  existsb (String.eqb x) l.

Definition setClock (t : time.Time) (w : World) : World :=
  {| clock := t; libraries := libraries w; dispatched := dispatched w;
     dispatchErrors := dispatchErrors w; files := files w;
     unreadable := unreadable w; declined := declined w; uuids := uuids w;
     saveError := saveError w |}.

Definition setLibraries (libs : list Lib) (w : World) : World :=
  {| clock := clock w; libraries := libs; dispatched := dispatched w;
     dispatchErrors := dispatchErrors w; files := files w;
     unreadable := unreadable w; declined := declined w; uuids := uuids w;
     saveError := saveError w |}.

Definition setUUIDs (us : list string) (w : World) : World :=
  {| clock := clock w; libraries := libraries w; dispatched := dispatched w;
     dispatchErrors := dispatchErrors w; files := files w;
     unreadable := unreadable w; declined := declined w; uuids := us;
     saveError := saveError w |}.

Definition store (lib : Lib) (libs : list Lib) : list Lib :=
  map (fun l => if (ID l =? ID lib)%Z then lib else l) libs.

#[export] Instance zeroMetadata : Zero string := "".

#[export] Instance dataStore : LibraryManagerDataStorer string string World := {
  Libraries w := ((libraries w, None), w);
  SaveLibrary lib w :=
    match saveError w with
    | Some e => (Some e, w)
    | None => (None, setLibraries (store lib (libraries w)) w)
    end;
  IsPathDispatched path w :=
    if inList path (dispatchErrors w) then ((false, Some "store unavailable"), w)
    else ((inList path (dispatched w), None), w);
}.

#[export] Instance reader : MetadataReader string World := {
  Read path w :=
    if inList path (unreadable w) then (("", Some "unreadable file"), w)
    else ((String.append "metadata of " path, None), w);
}.

#[export] Instance decider : CommandDecider string string World := {
  Decide metadata settings w :=
    if inList metadata (declined w) then (([], Some "no work needed"), w)
    else ((["ffmpeg"; settings; metadata], None), w);
}.

#[export] Instance fileser : videoFileser World := {
  VideoFiles dir w :=
    if String.eqb dir "" then (([], Some "no such directory"), w)
    else ((files w, None), w);
}.

#[export] Instance runtime : Runtime World := {
  Now w := (clock w, setClock (clock w + 1)%Z w);
  NewString w :=
    match uuids w with
    | [] => ("", w)
    | u :: us => (u, setUUIDs us w)
    end;
  IsContextFinished w := (false, w);
}.

Definition library (id : Z) (priority : Z) (interval : time.Duration)
  (queue : list (Job string)) (masks : list string) : Lib :=
  {| ID := id; Folder := "/movies"; Priority := priority;
     FsCheckInterval := interval; Queue := queue; PathMasks := masks;
     CommandDeciderSettings := "hevc" |}.

Definition job (uuid path : string) : Job string :=
  {| UUID := uuid; Path := path; Command := ["ffmpeg"; "hevc"; path];
     Metadata := String.append "metadata of " path |}.

(** 2026-11-01T00:00:00Z. *)
Definition today : time.Time := time.Unix 1793491200 0.

Definition emptyWorld : World :=
  {| clock := today; libraries := []; dispatched := []; dispatchErrors := [];
     files := []; unreadable := []; declined := []; uuids := ["u1"; "u2"; "u3"];
     saveError := None |}.

Definition withFiles (fs : list string) (w : World) : World :=
  {| clock := clock w; libraries := libraries w; dispatched := dispatched w;
     dispatchErrors := dispatchErrors w; files := fs;
     unreadable := unreadable w; declined := declined w; uuids := uuids w;
     saveError := saveError w |}.

Definition maskedLibrary : Lib :=
  library 1 0 (10 * time.Second)%Z [] ["/tmp/"; "_partial"].

(** A library whose interval is a hundred years (of 365.25 days). *)
Definition centuryLibrary : Lib :=
  library 7 0 (3155760000 * time.Second)%Z [] [].

Definition centuryWorld : World := setLibraries [centuryLibrary] emptyWorld.

(** Spec 8, priority pop order: A (priority 5, one job) and B (priority
    10, one job). *)
Definition job1 : Job string := job "j1" "/movies/one.mkv".
Definition job2 : Job string := job "j2" "/movies/two.mkv".
Definition libraryA : Lib := library 1 5 (10 * time.Second)%Z [job1] [].
Definition libraryB : Lib := library 2 10 (10 * time.Second)%Z [job2] [].
Definition priorityWorld : World :=
  setLibraries [libraryA; libraryB] emptyWorld.

(** Spec 8, settings update: library 1 with three queued jobs, and a
    replacement record with another folder, interval and masks and an
    empty queue. *)
Definition job3 : Job string := job "j3" "/movies/three.mkv".
Definition queuedLibrary : Lib :=
  library 1 5 (10 * time.Second)%Z [job1; job2; job3] [].
Definition newSettings : Lib :=
  {| ID := 1; Folder := "/series"; Priority := 9;
     FsCheckInterval := (60 * time.Second)%Z; Queue := [];
     PathMasks := ["_partial"]; CommandDeciderSettings := "av1" |}.
Definition settingsWorld : World := setLibraries [queuedLibrary] emptyWorld.
Definition settingsUpdate : gmap Z Lib := {[ 1%Z := newSettings ]}.

(** Worlds in which one call fails for the path [/movies/b.mkv]. *)
Definition threeFiles : list string :=
  ["/movies/a.mkv"; "/movies/b.mkv"; "/movies/c.mkv"].

Definition unreadableWorld : World :=
  {| clock := today; libraries := []; dispatched := []; dispatchErrors := [];
     files := threeFiles; unreadable := ["/movies/b.mkv"]; declined := [];
     uuids := ["u1"; "u2"; "u3"]; saveError := None |}.

Definition dispatchErrorWorld : World :=
  {| clock := today; libraries := []; dispatched := [];
     dispatchErrors := ["/movies/b.mkv"];
     files := threeFiles; unreadable := []; declined := [];
     uuids := ["u1"; "u2"; "u3"]; saveError := None |}.

Definition saveErrorWorld : World :=
  {| clock := today; libraries := []; dispatched := []; dispatchErrors := [];
     files := threeFiles; unreadable := []; declined := [];
     uuids := ["u1"; "u2"; "u3"]; saveError := Some "disk full" |}.

Definition plainLibrary : Lib := library 1 0 (10 * time.Second)%Z [] [].

Definition plainManager : Manager string string World :=
  NewManager emptyWorld.
Definition centuryManager : Manager string string World :=
  NewManager centuryWorld.
Definition priorityManager : Manager string string World :=
  NewManager priorityWorld.
Definition settingsManager : Manager string string World :=
  NewManager settingsWorld.
End Fixture.

(** ** The in-memory world in an outage

    The same world with a data store whose [Libraries] fails, and with a
    context that is finished. *)

Module Outage.
Import Fixture.

Definition downStore : LibraryManagerDataStorer string string World := {|
  Libraries w := (([], Some "store unavailable"), w);
  SaveLibrary lib w := (Some "store unavailable", w);
  IsPathDispatched path w := ((false, Some "store unavailable"), w);
|}.

Definition cancelled : Runtime World := {|
  Now w := (clock w, w);
  NewString w := ("", w);
  IsContextFinished w := (true, w);
|}.

(** The folder of this library does not exist. *)
Definition lostLibrary : Lib :=
  {| ID := 3; Folder := ""; Priority := 0;
     FsCheckInterval := (10 * time.Second)%Z; Queue := [job1];
     PathMasks := []; CommandDeciderSettings := "hevc" |}.

(** A library whose interval is negative. *)
Definition hastyLibrary : Lib := library 4 0 (-1)%Z [] [].

(** A world whose command decider declines the second of three files. *)
Definition declinedWorld : World :=
  {| clock := today; libraries := []; dispatched := []; dispatchErrors := [];
     files := threeFiles; unreadable := [];
     declined := ["metadata of /movies/b.mkv"];
     uuids := ["u1"; "u2"; "u3"]; saveError := None |}.

(** A world in which the first of three files has been dispatched, the
    discoverer returns the second twice and one file lies under [/tmp/]. *)
Definition busyWorld : World :=
  {| clock := today; libraries := []; dispatched := ["/movies/a.mkv"];
     dispatchErrors := [];
     files := ["/movies/a.mkv"; "/movies/b.mkv"; "/movies/tmp/x.mkv";
               "/movies/b.mkv"; "/movies/c.mkv"];
     unreadable := []; declined := [];
     uuids := ["u1"; "u2"; "u3"]; saveError := None |}.

Definition busyManager : Manager string string World := NewManager busyWorld.

(** Library 1 twice in the list the store returns. *)
Definition twiceWorld : World :=
  setLibraries [plainLibrary; libraryB; plainLibrary] emptyWorld.
Definition twiceManager : Manager string string World := NewManager twiceWorld.

(** A manager whose library 1 has a worker in flight. *)
Definition inFlightManager : Manager string string World :=
  setWorkerCompleted 1 false
    (setLastChecked 1 (time.Unix 0 0) (NewManager priorityWorld)).
End Outage.

(** ** Properties *)

(** *** Substrings *)

Lemma append_String (c : ascii) (s t : string) :
  String.append (String c s) t = String c (String.append s t).
Proof. reflexivity. Qed.

Lemma append_Empty (t : string) : String.append EmptyString t = t.
Proof. reflexivity. Qed.

Lemma HasPrefix_spec (s prefix : string) :
  Strings.HasPrefix s prefix = true <->
  exists post, s = String.append prefix post.
Proof.
  revert s; induction prefix as [|c prefix IH]; intros s; simpl.
  - split; [intros _; exists s; reflexivity | reflexivity].
  - setoid_rewrite append_String.
    destruct s as [|d s]; [split; [discriminate | intros [post E]; discriminate]|].
    destruct (Ascii.eqb_spec c d) as [->|Hne].
    + rewrite IH. split; intros [post E]; exists post; congruence.
    + split; [discriminate | intros [post E]; congruence].
Qed.

Lemma Contains_spec (s substr : string) :
  Strings.Contains s substr = true <-> Strings.occursIn substr s.
Proof.
  unfold Strings.occursIn.
  induction s as [|d s IH]; simpl; rewrite orb_true_iff, HasPrefix_spec.
  - split.
    + intros [[post E]|?]; [|discriminate]. exists EmptyString, post. exact E.
    + intros [[|? ?] [post E]]; [left; exists post; exact E | discriminate].
  - rewrite IH. split.
    + intros [[post E]|[pre [post E]]].
      * exists EmptyString, post. exact E.
      * exists (String d pre), post. rewrite append_String. congruence.
    + intros [[|c pre] [post E]].
      * left; exists post; exact E.
      * right; exists pre, post. rewrite append_String in E. congruence.
Qed.

Section Properties.
Context {FileMetadata : Type} `{!Zero FileMetadata} {Settings World : Type}.
Context `{!LibraryManagerDataStorer FileMetadata Settings World,
          !MetadataReader FileMetadata World,
          !CommandDecider FileMetadata Settings World,
          !videoFileser World, !Runtime World}.

Implicit Types (lib : Library FileMetadata Settings).
Implicit Types (m : Manager FileMetadata Settings World).
Implicit Types (q : LibraryQueue FileMetadata).
Implicit Types (videoFilepath v : string).

(** *** Loops and traces *)

Lemma forRange_app {S A B} (body : A -> B -> State S B) xs ys b s :
  forRange body (xs ++ ys) b s =
  forRange body ys (forRange body xs b s).1 (forRange body xs b s).2.
Proof.
  revert b s; induction xs as [|x xs IH]; intros b s; [reflexivity|].
  simpl. unfold mbind, State_bind.
  destruct (body x b s) as [b' s']. apply IH.
Qed.

Lemma forRange_cons {S A B} (body : A -> B -> State S B) x xs b s :
  forRange body (x :: xs) b s =
  forRange body xs (body x b s).1 (body x b s).2.
Proof. simpl. unfold mbind, State_bind. destruct (body x b s); reflexivity. Qed.

(** The path is masked out exactly when it contains one of the masks. *)
Lemma maskedOutBy_Some videoFilepath masks v :
  maskedOutBy videoFilepath masks = Some v ->
  v ∈ masks /\ Strings.occursIn v videoFilepath.
Proof.
  unfold maskedOutBy. intros Hfind. apply find_some in Hfind as [Hin Hc].
  split; [apply list_elem_of_In, Hin | apply Contains_spec, Hc].
Qed.

Lemma maskedOutBy_None videoFilepath masks :
  maskedOutBy videoFilepath masks = None <->
  ~ exists v, v ∈ masks /\ Strings.occursIn v videoFilepath.
Proof.
  unfold maskedOutBy. split.
  - intros Hfind [v [Hin Hocc]].
    apply list_elem_of_In in Hin.
    pose proof (find_none _ _ Hfind v Hin) as Hc.
    apply Contains_spec in Hocc. congruence.
  - intros Hno. destruct (find _ masks) as [v|] eqn:Hfind; [|reflexivity].
    exfalso. apply Hno. exists v. apply maskedOutBy_Some, Hfind.
Qed.

Ltac run :=
  unfold mbind, State_bind, mret, State_ret, call, logger, emit, modify,
    newString, now, Since; cbn.

Ltac step :=
  cbn [fst snd andb orb app world trace lastCheckedTimes workerCompletedMap
       launches setWorld record setLastChecked setWorkerCompleted].

(** States of the manager built by recording and by moving the world are
    brought to the form [advance w evs m]. *)
Lemma record_advance evs m : record evs m = advance (world m) evs m.
Proof. reflexivity. Qed.

Lemma setWorld_after_advance w' w evs m :
  setWorld w' (advance w evs m) = advance w' evs m.
Proof. reflexivity. Qed.

Lemma world_advance w evs m : world (advance w evs m) = w.
Proof. reflexivity. Qed.

Lemma advance_advance w evs w' evs' m :
  advance w' evs' (advance w evs m) = advance w' (evs ++ evs') m.
Proof.
  unfold advance.
  cbn [world trace lastCheckedTimes workerCompletedMap launches].
  by rewrite <- (app_assoc (trace m) evs evs').
Qed.

Ltac settle :=
  rewrite ?record_advance, ?setWorld_after_advance, ?world_advance,
    ?advance_advance;
  unfold readLog; reflexivity.

(** The loop body takes one of the ways of [videoOutcome]. *)
Lemma processVideo_outcome videoFilepath lib m :
  videoOutcome videoFilepath lib m (processVideo videoFilepath lib m).
Proof.
  destruct (maskedOutBy videoFilepath (PathMasks lib)) as [v|] eqn:Hmask.
  { replace (processVideo videoFilepath lib m)
      with (lib, advance (world m) [maskLog videoFilepath v] m).
    - by apply video_masked.
    - unfold processVideo. rewrite Hmask. reflexivity. }
  destruct (IsPathDispatched videoFilepath (world m)) as [[b derr] w1] eqn:Hdisp.
  destruct derr as [e|].
  { replace (processVideo videoFilepath lib m)
      with (lib, advance w1
              [CallIsPathDispatched videoFilepath; Logged Error e []] m).
    - by eapply video_dispatch_error.
    - unfold processVideo. rewrite Hmask. run. rewrite Hdisp. settle. }
  destruct (b || InQueuePath (Queue lib) (pathJob videoFilepath)) eqn:Hskip.
  { replace (processVideo videoFilepath lib m)
      with (lib, advance w1 [CallIsPathDispatched videoFilepath] m).
    - by eapply video_filtered.
    - unfold processVideo. rewrite Hmask. run. rewrite Hdisp. step.
      rewrite Hskip. settle. }
  apply orb_false_elim in Hskip as [-> Hq].
  destruct (Read videoFilepath w1) as [[fMetadata rerr] w2] eqn:Hread.
  destruct (Decide fMetadata (CommandDeciderSettings lib) w2)
    as [[commandSlice cerr] w3] eqn:Hdec.
  destruct cerr as [e|].
  { replace (processVideo videoFilepath lib m) with
      (lib,
       advance w3
         ([CallIsPathDispatched videoFilepath; CallRead videoFilepath]
          ++ readLog videoFilepath rerr
          ++ [CallDecide fMetadata (CommandDeciderSettings lib);
              Logged Debug
                "Skipping %v because CommandDecider returned error: %v"
                [ArgString videoFilepath; ArgString e]]) m).
    - by eapply video_declined.
    - unfold processVideo. rewrite Hmask. run. rewrite Hdisp. step.
      rewrite Hq. step. rewrite Hread. step.
      destruct rerr as [re|]; step; rewrite Hdec; settle. }
  destruct (NewString w3) as [uuid w4] eqn:Hid.
  destruct (SaveLibrary
              (withQueue lib
                 (Push (Queue lib)
                    (newJob uuid videoFilepath commandSlice fMetadata))) w4)
    as [serr w5] eqn:Hsave.
  replace (processVideo videoFilepath lib m) with
    (withQueue lib
       (Push (Queue lib) (newJob uuid videoFilepath commandSlice fMetadata)),
     advance w5
       ([CallIsPathDispatched videoFilepath; CallRead videoFilepath]
        ++ readLog videoFilepath rerr
        ++ [CallDecide fMetadata (CommandDeciderSettings lib);
            Logged Info "Added %v to Library %v's queue"
              [ArgString videoFilepath; ArgInt (ID lib)];
            CallSaveLibrary
              (withQueue lib
                 (Push (Queue lib)
                    (newJob uuid videoFilepath commandSlice fMetadata)))]) m).
  - by eapply video_enqueued.
  - unfold newJob in Hsave |- *.
    unfold processVideo. rewrite Hmask. run. rewrite Hdisp. step.
    rewrite Hq. step. rewrite Hread. step.
    destruct rerr as [re|]; step; rewrite Hdec; step; rewrite Hid; step;
      rewrite Hsave; settle.
Qed.

(** The answers of the collaborators determine the way taken. *)
Lemma videoOutcome_det videoFilepath lib m r1 r2 :
  videoOutcome videoFilepath lib m r1 ->
  videoOutcome videoFilepath lib m r2 ->
  r1 = r2.
Proof.
  intros H1 H2.
  destruct H1; destruct H2;
    repeat match goal with
           | Ha : ?x = _, Hb : ?x = _ |- _ =>
               rewrite Ha in Hb; inversion Hb; clear Hb; subst
           end;
    try reflexivity; try discriminate;
    match goal with
    | Hor : _ || _ = true |- _ =>
        apply orb_true_iff in Hor as [?|?]; congruence
    end.
Qed.

Lemma processVideo_is videoFilepath lib m r :
  videoOutcome videoFilepath lib m r -> processVideo videoFilepath lib m = r.
Proof.
  intros Hr. eapply videoOutcome_det; [apply processVideo_outcome | exact Hr].
Qed.

(** *** The mask filter *)

(** C7: a discovered path is skipped at the mask filter, with nothing but
    the debug line recorded (no call of the data store, of the metadata
    reader or of the command decider, the world and the queue untouched),
    if and only if it contains one of the library's path masks; a path
    that contains none goes on to the dispatch check, the first thing
    recorded for it being the call of [IsPathDispatched]. *)
Theorem mask_filter_skips_exactly_masked_paths videoFilepath lib m :
  ((exists v, v ∈ PathMasks lib /\ Strings.occursIn v videoFilepath) <->
   (exists v, processVideo videoFilepath lib m =
              (lib, advance (world m) [maskLog videoFilepath v] m)))
  /\
  ((~ exists v, v ∈ PathMasks lib /\ Strings.occursIn v videoFilepath) <->
   (exists evs, trace (processVideo videoFilepath lib m).2 =
                trace m ++ CallIsPathDispatched videoFilepath :: evs)).
Proof.
  pose proof (processVideo_outcome videoFilepath lib m) as Hout.
  assert (Hunmasked :
    maskedOutBy videoFilepath (PathMasks lib) = None ->
    exists evs, trace (processVideo videoFilepath lib m).2 =
                trace m ++ CallIsPathDispatched videoFilepath :: evs).
  { intros Hnone. destruct Hout; try congruence; cbn; eauto. }
  assert (Hmasked : forall v,
    maskedOutBy videoFilepath (PathMasks lib) = Some v ->
    processVideo videoFilepath lib m =
    (lib, advance (world m) [maskLog videoFilepath v] m)).
  { intros v Hsome. apply processVideo_is. by constructor. }
  destruct (maskedOutBy videoFilepath (PathMasks lib)) as [v|] eqn:Hmask.
  - pose proof (maskedOutBy_Some _ _ _ Hmask) as Hv.
    split; split.
    + intros _. exists v. by apply Hmasked.
    + intros _. by exists v.
    + intros Hno. exfalso. apply Hno. by exists v.
    + intros [evs Hevs]. rewrite (Hmasked v eq_refl) in Hevs. cbn in Hevs.
      apply app_inv_head in Hevs. discriminate.
  - pose proof (proj1 (maskedOutBy_None _ _) Hmask) as Hno.
    split; split.
    + intros Hv. by destruct Hno.
    + intros [v Heq]. destruct (Hunmasked eq_refl) as [evs Hevs].
      rewrite Heq in Hevs. cbn in Hevs.
      apply app_inv_head in Hevs. discriminate.
    + intros _. by apply Hunmasked.
    + intros _. exact Hno.
Qed.

(** *** The worker-completed flag *)

(** C5: whatever way the scan worker takes (the discovery fails, or the
    loop over the discovered paths runs to its end, whatever fails inside
    it), the worker returns, and when it has returned the
    worker-completed flag of its library is true. *)
Theorem worker_completed_on_every_exit lib m :
  workerCompletedMap (updateLibraryQueue lib m).2 !! ID lib = Some true.
Proof.
  unfold updateLibraryQueue. run.
  destruct (VideoFiles (Folder lib) (world m)) as [[discoveredVideos err] w].
  destruct err as [e|]; cbn.
  - apply lookup_insert_eq.
  - destruct (forRange processVideo discoveredVideos lib _) as [lib' m'].
    cbn. apply lookup_insert_eq.
Qed.

(** *** What a scan leaves alone *)

Lemma withQueue_same lib : withQueue lib (Queue lib) = lib.
Proof. by destruct lib. Qed.

Lemma withQueue_twice lib q q' :
  withQueue (withQueue lib q) q' = withQueue lib q'.
Proof. reflexivity. Qed.

Lemma eventsSince_advance m w evs : eventsSince m (advance w evs m) = evs.
Proof. unfold eventsSince, advance; cbn. apply drop_app_length. Qed.

Lemma eventsSince_setWorkerCompleted m id b m' :
  eventsSince m (setWorkerCompleted id b m') = eventsSince m m'.
Proof. reflexivity. Qed.

(** A step of the loop body changes the queue of the local [lib] only,
    leaves the two maps of the manager alone and appends to the trace. *)
Lemma processVideo_frame videoFilepath lib m :
  let r := processVideo videoFilepath lib m in
  r.1 = withQueue lib (Queue r.1) /\
  lastCheckedTimes r.2 = lastCheckedTimes m /\
  workerCompletedMap r.2 = workerCompletedMap m /\
  trace r.2 = trace m ++ eventsSince m r.2.
Proof.
  destruct (processVideo_outcome videoFilepath lib m); cbn;
    rewrite ?withQueue_same;
    repeat split; try reflexivity;
    by rewrite (eventsSince_advance m).
Qed.

Lemma scan_frame videos lib m :
  let r := forRange processVideo videos lib m in
  r.1 = withQueue lib (Queue r.1) /\
  lastCheckedTimes r.2 = lastCheckedTimes m /\
  workerCompletedMap r.2 = workerCompletedMap m /\
  trace r.2 = trace m ++ eventsSince m r.2.
Proof.
  revert lib m; induction videos as [|v videos IH]; intros lib m.
  - cbn. rewrite withQueue_same. repeat split.
    unfold eventsSince. by rewrite drop_all, app_nil_r.
  - rewrite forRange_cons.
    destruct (processVideo_frame v lib m) as (Hl & Ht & Hw & Htr).
    destruct (IH (processVideo v lib m).1 (processVideo v lib m).2)
      as (Hl' & Ht' & Hw' & Htr').
    cbn zeta. repeat split.
    + rewrite Hl' at 1. rewrite Hl at 1. apply withQueue_twice.
    + congruence.
    + congruence.
    + rewrite Htr'. rewrite Htr at 1. rewrite <- app_assoc. f_equal.
      unfold eventsSince at 3. rewrite Htr', Htr at 1.
      rewrite <- app_assoc. by rewrite drop_app_length.
Qed.

Lemma scan_PathMasks videos lib m :
  PathMasks (forRange processVideo videos lib m).1 = PathMasks lib.
Proof. destruct (scan_frame videos lib m) as [-> _]. reflexivity. Qed.

Lemma scan_settings videos lib m :
  CommandDeciderSettings (forRange processVideo videos lib m).1 =
  CommandDeciderSettings lib.
Proof. destruct (scan_frame videos lib m) as [-> _]. reflexivity. Qed.

Lemma scan_ID videos lib m :
  ID (forRange processVideo videos lib m).1 = ID lib.
Proof. destruct (scan_frame videos lib m) as [-> _]. reflexivity. Qed.

(** The events of a scan are those of its first paths followed by those
    of the others. *)
Lemma eventsSince_scan_app pre rest lib m :
  let r := forRange processVideo pre lib m in
  eventsSince m (forRange processVideo (pre ++ rest) lib m).2 =
  eventsSince m r.2 ++ eventsSince r.2 (forRange processVideo rest r.1 r.2).2.
Proof.
  cbn zeta. rewrite forRange_app.
  destruct (scan_frame pre lib m) as (_ & _ & _ & Htr).
  destruct (scan_frame rest (forRange processVideo pre lib m).1
              (forRange processVideo pre lib m).2) as (_ & _ & _ & Htr').
  unfold eventsSince at 1. rewrite Htr', Htr at 1.
  rewrite <- app_assoc. by rewrite drop_app_length.
Qed.

(** The worker is the scan of what the discoverer returned, between the
    call of the discoverer and the deferred update of the flag. *)
Lemma updateLibraryQueue_scan lib m discoveredVideos w :
  VideoFiles (Folder lib) (world m) = ((discoveredVideos, None), w) ->
  let r := forRange processVideo discoveredVideos lib
             (advance w [CallVideoFiles (Folder lib)] m) in
  updateLibraryQueue lib m = (r.1, setWorkerCompleted (ID lib) true r.2).
Proof.
  intros Hfiles. unfold updateLibraryQueue. run. rewrite Hfiles.
  change (setWorld w (record [CallVideoFiles (Folder lib)] m))
    with (advance w [CallVideoFiles (Folder lib)] m).
  by destruct (forRange processVideo discoveredVideos lib _).
Qed.

Lemma updateLibraryQueue_no_videos lib m discoveredVideos e w :
  VideoFiles (Folder lib) (world m) = ((discoveredVideos, Some e), w) ->
  updateLibraryQueue lib m =
  (lib, setWorkerCompleted (ID lib) true
          (advance w [CallVideoFiles (Folder lib); Logged Error e []] m)).
Proof.
  intros Hfiles. unfold updateLibraryQueue. run. rewrite Hfiles. cbn.
  unfold setWorkerCompleted, advance; cbn. by rewrite <- app_assoc.
Qed.

(** *** No two jobs for one path *)

Lemma InQueuePath_paths q videoFilepath :
  InQueuePath q (pathJob videoFilepath) = true <->
  videoFilepath ∈ queuePaths q.
Proof.
  unfold InQueuePath, queuePaths, EqualPath. rewrite existsb_exists. cbn.
  rewrite list_elem_of_In, in_map_iff. split.
  - intros [j [Hj Heq]]. apply String.eqb_eq in Heq. by exists j.
  - intros [j [Heq Hj]]. exists j. split; [done|]. by apply String.eqb_eq.
Qed.

Lemma queuePaths_Push q j : queuePaths (Push q j) = queuePaths q ++ [Path j].
Proof. unfold queuePaths, Push. by rewrite map_app. Qed.

Lemma NoDup_Push q j :
  NoDup (queuePaths q) -> InQueuePath q (pathJob (Path j)) = false ->
  NoDup (queuePaths (Push q j)).
Proof.
  intros Hq Hnot. rewrite queuePaths_Push.
  apply NoDup_app. split; [done|]. split; [|apply NoDup_singleton].
  intros x Hx Hx'. apply list_elem_of_singleton in Hx' as ->.
  apply InQueuePath_paths in Hx. congruence.
Qed.

(** One step of the loop keeps the queue free of duplicate paths, and so
    is every library it hands to [SaveLibrary]. *)
Lemma processVideo_dedup videoFilepath lib m :
  NoDup (queuePaths (Queue lib)) ->
  let r := processVideo videoFilepath lib m in
  NoDup (queuePaths (Queue r.1)) /\
  forall saved, CallSaveLibrary saved ∈ eventsSince m r.2 ->
                NoDup (queuePaths (Queue saved)).
Proof.
  intros Hq.
  destruct (processVideo_outcome videoFilepath lib m) as
    [v Hm|b e w Hm Hd|b w Hm Hd Hs|w1 md rerr w2 c e w3 Hm Hd Hi Hr Hc
    |w1 md rerr w2 c w3 u w4 serr w5 Hm Hd Hi Hr Hc Hu Hs];
    cbn zeta; cbn [fst snd]; rewrite eventsSince_advance.
  - split; [done|]. intros saved Hin.
    apply list_elem_of_singleton in Hin. discriminate.
  - split; [done|]. intros saved Hin.
    repeat (apply elem_of_cons in Hin as [Hin|Hin]; [discriminate|]).
    by apply elem_of_nil in Hin.
  - split; [done|]. intros saved Hin.
    apply list_elem_of_singleton in Hin. discriminate.
  - split; [done|]. intros saved Hin.
    destruct rerr; cbn in Hin;
      repeat (apply elem_of_cons in Hin as [Hin|Hin]; [discriminate|]);
      by apply elem_of_nil in Hin.
  - assert (Hnew : NoDup (queuePaths (Push (Queue lib) (newJob u videoFilepath c md)))).
    { by apply NoDup_Push. }
    split; [exact Hnew|]. intros saved Hin.
    destruct rerr; cbn in Hin;
      repeat (apply elem_of_cons in Hin as [Hin|Hin];
              [first [discriminate | by injection Hin as ->]|]);
      by apply elem_of_nil in Hin.
Qed.

Lemma scan_dedup videos lib m :
  NoDup (queuePaths (Queue lib)) ->
  let r := forRange processVideo videos lib m in
  NoDup (queuePaths (Queue r.1)) /\
  forall saved, CallSaveLibrary saved ∈ eventsSince m r.2 ->
                NoDup (queuePaths (Queue saved)).
Proof.
  revert lib m; induction videos as [|v videos IH]; intros lib m Hq.
  - cbn. split; [done|]. intros saved Hin.
    unfold eventsSince in Hin. rewrite drop_all in Hin.
    by apply elem_of_nil in Hin.
  - cbn zeta.
    pose proof (eventsSince_scan_app [v] videos lib m) as Happ.
    cbn zeta in Happ. change ([v] ++ videos) with (v :: videos) in Happ.
    rewrite Happ. rewrite forRange_cons.
    change (forRange processVideo [v] lib m) with
      (let (b', s') := processVideo v lib m in (b', s')).
    destruct (processVideo_dedup v lib m Hq) as [Hq1 Hs1].
    destruct (processVideo v lib m) as [lib1 m1] eqn:Hstep. cbn [fst snd] in *.
    destruct (IH lib1 m1 Hq1) as [Hq2 Hs2].
    split; [exact Hq2|]. intros saved Hin.
    apply elem_of_app in Hin as [Hin|Hin]; eauto.
Qed.

Lemma updateLibraryQueue_dedup lib m :
  NoDup (queuePaths (Queue lib)) ->
  let r := updateLibraryQueue lib m in
  NoDup (queuePaths (Queue r.1)) /\
  forall saved, CallSaveLibrary saved ∈ eventsSince m r.2 ->
                NoDup (queuePaths (Queue saved)).
Proof.
  intros Hq.
  destruct (VideoFiles (Folder lib) (world m)) as [[videos [e|]] w] eqn:Hfiles.
  - rewrite (updateLibraryQueue_no_videos _ _ _ _ _ Hfiles).
    cbn zeta; cbn [fst snd].
    split; [done|]. intros saved Hin.
    rewrite eventsSince_setWorkerCompleted, eventsSince_advance in Hin.
    repeat (apply elem_of_cons in Hin as [Hin|Hin]; [discriminate|]).
    by apply elem_of_nil in Hin.
  - rewrite (updateLibraryQueue_scan _ _ _ _ Hfiles). cbn zeta. cbn [fst snd].
    set (m0 := advance w [CallVideoFiles (Folder lib)] m).
    destruct (scan_dedup videos lib m0 Hq) as [Hq' Hs'].
    split; [exact Hq'|]. intros saved Hin.
    rewrite eventsSince_setWorkerCompleted in Hin.
    destruct (scan_frame videos lib m0) as (_ & _ & _ & Htr).
    unfold eventsSince in Hin. rewrite Htr in Hin.
    cbn [trace m0 advance] in Hin.
    rewrite <- app_assoc, drop_app_length in Hin.
    apply elem_of_cons in Hin as [Hin|Hin]; [discriminate|].
    by apply Hs'.
Qed.

(** The queue only grows during a scan. *)
Lemma scan_queue_grows videos lib m :
  exists added, Queue (forRange processVideo videos lib m).1 = Queue lib ++ added.
Proof.
  revert lib m; induction videos as [|v videos IH]; intros lib m.
  - exists []. cbn. by rewrite app_nil_r.
  - rewrite forRange_cons.
    destruct (IH (processVideo v lib m).1 (processVideo v lib m).2)
      as [added ->].
    destruct (processVideo_outcome v lib m); cbn; eauto.
    unfold Push. rewrite <- app_assoc. eauto.
Qed.

(** C2: the scan worker keeps the queue of a library free of duplicate
    paths.  A queue without two jobs for one path stays so through any
    number of scan rounds: so is the queue every round ends with and so
    is every queue handed to [SaveLibrary] on the way.  And a path that
    the data store reports as dispatched when the loop reaches it (in
    whatever state [lib] and [m] the loop is then) is not pushed: the
    queue is the same after the step. *)
Theorem dedup_across_scan_rounds (q0 : LibraryQueue FileMetadata) :
  NoDup (queuePaths q0) ->
  (forall q, scanRounds q0 q -> NoDup (queuePaths q)) /\
  (forall videoFilepath lib m,
     (IsPathDispatched videoFilepath (world m)).1.1 = true ->
     Queue (processVideo videoFilepath lib m).1 = Queue lib).
Proof.
  intros Hq0. split.
  - intros q Hrounds. induction Hrounds as [|lib m _ IH|lib m saved _ IH Hin].
    + exact Hq0.
    + by apply updateLibraryQueue_dedup.
    + by apply (updateLibraryQueue_dedup lib m IH).
  - intros videoFilepath lib m Hdisp.
    destruct (processVideo_outcome videoFilepath lib m)
      as [| | |? ? ? ? ? ? ? ? Hd|? ? ? ? ? ? ? ? ? ? ? Hd]; try reflexivity;
      rewrite Hd in Hdisp; discriminate.
Qed.

(** *** Errors inside the loop *)

(** C6: when the metadata reader fails on a path that passed the
    filters, the error is logged and the path is not skipped: the command
    decider is called next, with the metadata the failed read returned,
    whatever it then answers; and if it succeeds, a job with that metadata
    is pushed at the end of the library's queue, and the library saved. *)
Theorem read_error_does_not_skip videoFilepath lib m w1 fMetadata e w2
    commandSlice derr w3 :
  maskedOutBy videoFilepath (PathMasks lib) = None ->
  IsPathDispatched videoFilepath (world m) = ((false, None), w1) ->
  InQueuePath (Queue lib) (pathJob videoFilepath) = false ->
  Read videoFilepath w1 = ((fMetadata, Some e), w2) ->
  Decide fMetadata (CommandDeciderSettings lib) w2 = ((commandSlice, derr), w3) ->
  let r := processVideo videoFilepath lib m in
  (exists evs,
     eventsSince m r.2 =
     [CallIsPathDispatched videoFilepath;
      CallRead videoFilepath;
      Logged Error "Skipping %v because of error: %v"
        [ArgString videoFilepath; ArgString e];
      CallDecide fMetadata (CommandDeciderSettings lib)] ++ evs) /\
  (derr = None ->
   let job := {| UUID := (NewString w3).1; Path := videoFilepath;
                 Command := commandSlice; Metadata := fMetadata |} in
   let lib' := withQueue lib (Push (Queue lib) job) in
   Queue r.1 = Queue lib ++ [job] /\
   ID r.1 = ID lib /\
   r = (lib',
        advance (SaveLibrary lib' (NewString w3).2).2
          [CallIsPathDispatched videoFilepath;
           CallRead videoFilepath;
           Logged Error "Skipping %v because of error: %v"
             [ArgString videoFilepath; ArgString e];
           CallDecide fMetadata (CommandDeciderSettings lib);
           Logged Info "Added %v to Library %v's queue"
             [ArgString videoFilepath; ArgInt (ID lib)];
           CallSaveLibrary lib'] m)).
Proof.
  intros Hmask Hdisp Hq Hread Hdec r. subst r.
  destruct derr as [de|].
  - rewrite (processVideo_is _ _ _ _
               (video_declined videoFilepath lib m w1 fMetadata (Some e) w2
                  commandSlice de w3 Hmask Hdisp Hq Hread Hdec)).
    cbn [fst snd]. rewrite eventsSince_advance.
    split; [|discriminate]. eexists. reflexivity.
  - destruct (NewString w3) as [uuid w4] eqn:Hid. cbn [fst snd].
    destruct (SaveLibrary
                (withQueue lib
                   (Push (Queue lib)
                      (newJob uuid videoFilepath commandSlice fMetadata))) w4)
      as [serr w5] eqn:Hsave.
    rewrite (processVideo_is _ _ _ _
               (video_enqueued videoFilepath lib m w1 fMetadata (Some e) w2
                  commandSlice w3 uuid w4 serr w5
                  Hmask Hdisp Hq Hread Hdec Hid Hsave)).
    cbn [fst snd]. rewrite eventsSince_advance.
    split; [eexists; reflexivity|]. intros _. cbn zeta.
    unfold newJob in Hsave |- *. rewrite Hsave. cbn [snd].
    split; [reflexivity|]. split; reflexivity.
Qed.

(** C8: when the data store fails on the dispatch query of one discovered
    path, that path alone is skipped: the error is logged, the queue
    stays as it was, and the loop goes on with every path that
    follows. *)
Theorem dispatch_error_skips_one_path pre videoFilepath rest lib m b e w :
  let r := forRange processVideo pre lib m in
  maskedOutBy videoFilepath (PathMasks lib) = None ->
  IsPathDispatched videoFilepath (world r.2) = ((b, Some e), w) ->
  forRange processVideo (pre ++ videoFilepath :: rest) lib m =
  forRange processVideo rest r.1
    (advance w [CallIsPathDispatched videoFilepath; Logged Error e []] r.2).
Proof.
  intros r Hmask Hdisp. rewrite forRange_app, forRange_cons. fold r.
  rewrite <- (scan_PathMasks pre lib m) in Hmask. fold r in Hmask.
  by rewrite (processVideo_is _ _ _ _
                (video_dispatch_error _ _ _ b e w Hmask Hdisp)).
Qed.

(** C10: the error that [SaveLibrary] returns after a push is dropped.
    Nothing is logged for it (the call is the last event of the step),
    the job stays on the queue of the local [lib], with which the loop
    goes on to every path that follows, and the job is on the queue the
    scan ends with. *)
Theorem save_error_is_discarded pre videoFilepath rest lib m w1 fMetadata
    rerr w2 commandSlice w3 uuid w4 e w5 :
  let r := forRange processVideo pre lib m in
  let job := newJob uuid videoFilepath commandSlice fMetadata in
  let lib' := withQueue r.1 (Push (Queue r.1) job) in
  maskedOutBy videoFilepath (PathMasks lib) = None ->
  IsPathDispatched videoFilepath (world r.2) = ((false, None), w1) ->
  InQueuePath (Queue r.1) (pathJob videoFilepath) = false ->
  Read videoFilepath w1 = ((fMetadata, rerr), w2) ->
  Decide fMetadata (CommandDeciderSettings lib) w2 = ((commandSlice, None), w3) ->
  NewString w3 = (uuid, w4) ->
  SaveLibrary lib' w4 = (Some e, w5) ->
  forRange processVideo (pre ++ videoFilepath :: rest) lib m =
  forRange processVideo rest lib'
    (advance w5
       ([CallIsPathDispatched videoFilepath; CallRead videoFilepath]
        ++ readLog videoFilepath rerr
        ++ [CallDecide fMetadata (CommandDeciderSettings lib);
            Logged Info "Added %v to Library %v's queue"
              [ArgString videoFilepath; ArgInt (ID lib)];
            CallSaveLibrary lib']) r.2)
  /\ job ∈ Queue (forRange processVideo (pre ++ videoFilepath :: rest) lib m).1.
Proof.
  intros r job lib' Hmask Hdisp Hq Hread Hdec Hid Hsave.
  rewrite <- (scan_PathMasks pre lib m) in Hmask. fold r in Hmask.
  rewrite <- (scan_settings pre lib m) in Hdec |- *. fold r in Hdec |- *.
  rewrite <- (scan_ID pre lib m). fold r.
  assert (Hstep :
    forRange processVideo (pre ++ videoFilepath :: rest) lib m =
    forRange processVideo rest lib'
      (advance w5
         ([CallIsPathDispatched videoFilepath; CallRead videoFilepath]
          ++ readLog videoFilepath rerr
          ++ [CallDecide fMetadata (CommandDeciderSettings r.1);
              Logged Info "Added %v to Library %v's queue"
                [ArgString videoFilepath; ArgInt (ID r.1)];
              CallSaveLibrary lib']) r.2)).
  { rewrite forRange_app, forRange_cons. fold r.
    by rewrite (processVideo_is _ _ _ _
                  (video_enqueued _ _ _ w1 fMetadata rerr w2 commandSlice w3
                     uuid w4 (Some e) w5 Hmask Hdisp Hq Hread Hdec Hid Hsave)). }
  split; [exact Hstep|].
  rewrite Hstep.
  destruct (scan_queue_grows rest lib'
              (advance w5
                 ([CallIsPathDispatched videoFilepath; CallRead videoFilepath]
                  ++ readLog videoFilepath rerr
                  ++ [CallDecide fMetadata (CommandDeciderSettings r.1);
                      Logged Info "Added %v to Library %v's queue"
                        [ArgString videoFilepath; ArgInt (ID r.1)];
                      CallSaveLibrary lib']) r.2)) as [added ->].
  cbn. unfold Push. set_solver.
Qed.

(** *** The scheduler loop *)

Lemma checkLibraries_app pre post m :
  checkLibraries (pre ++ post) m = checkLibraries post (checkLibraries pre m).2.
Proof.
  unfold checkLibraries. rewrite forRange_app.
  by destruct (forRange _ pre () m) as [[] m'].
Qed.

Lemma checkLibraries_cons lib post m :
  checkLibraries (lib :: post) m = checkLibraries post (checkLibrary lib m).2.
Proof.
  unfold checkLibraries. rewrite forRange_cons.
  by destruct (checkLibrary lib m) as [[] m'].
Qed.

(** A tick on which the data store answers is the loop over the
    libraries between the call of [Libraries] and the sleep. *)
Lemma tick_checks_libraries m allLibraries w :
  Libraries (world m) = ((allLibraries, None), w) ->
  tick m =
  ((), record [Sleep time.Second]
         (checkLibraries allLibraries (advance w [CallLibraries] m)).2).
Proof.
  intros Hlibs. unfold tick. run. rewrite Hlibs.
  change (setWorld w (record [CallLibraries] m))
    with (advance w [CallLibraries] m).
  by destruct (checkLibraries allLibraries _) as [[] m'].
Qed.

(** The loop body, spelled out. *)
Lemma checkLibrary_unfold lib m :
  let t := lastChecked m (ID lib) in
  let finished := workerCompleted m (ID lib) in
  let times := <[ID lib := t]> (lastCheckedTimes m) in
  let flags := <[ID lib := finished]> (workerCompletedMap m) in
  let '(n1, w1) := Now (world m) in
  let '(n2, w2) := Now w1 in
  checkLibrary lib m =
  ((), if (FsCheckInterval lib <? time.Sub n1 t)%Z && finished
       then {| lastCheckedTimes := <[ID lib := n2]> times;
               workerCompletedMap := <[ID lib := false]> flags;
               world := w2;
               trace := trace m ++ [initiateLog lib; Go lib];
               launches :=
                 launches m ++
                 [{| launchLib := lib;
                     launchTimes := <[ID lib := n2]> times;
                     launchFlags := <[ID lib := false]> flags |}] |}
       else {| lastCheckedTimes := times; workerCompletedMap := flags;
               world := w1; trace := trace m; launches := launches m |}).
Proof.
  cbn zeta.
  destruct (Now (world m)) as [n1 w1] eqn:Hn1.
  destruct (Now w1) as [n2 w2] eqn:Hn2.
  unfold checkLibrary, lookupLastChecked, lookupWorkerCompleted,
    lastChecked, workerCompleted, initiateLog.
  run. run.
  destruct (lastCheckedTimes m !! ID lib) as [t|] eqn:Ht; cbn;
    destruct (workerCompletedMap m !! ID lib) as [b|] eqn:Hb; cbn;
    rewrite Hn1; cbn;
    rewrite ?(insert_id _ _ _ Ht), ?(insert_id _ _ _ Hb);
    (destruct (_ && _); cbn; rewrite ?Hn2;
     unfold goUpdateLibraryQueue, record, setWorld, setLastChecked,
       setWorkerCompleted;
     cbn [fst snd world trace lastCheckedTimes workerCompletedMap launches];
     rewrite <- ?(app_assoc (trace m)); reflexivity).
Qed.

(** The loop body on its own: what is recorded and when. *)
Lemma checkLibrary_events lib m :
  let m2 := (checkLibrary lib m).2 in
  let due := (FsCheckInterval lib <
              time.Sub (Now (world m)).1 (lastChecked m (ID lib)))%Z /\
             workerCompleted m (ID lib) = true in
  (due -> eventsSince m m2 = [initiateLog lib; Go lib]) /\
  (~ due -> eventsSince m m2 = []).
Proof.
  intros m2 due.
  pose proof (checkLibrary_unfold lib m) as Hbody. cbn zeta in Hbody.
  subst m2 due.
  destruct (Now (world m)) as [n1 w1].
  destruct (Now w1) as [n2 w2].
  rewrite Hbody. cbn [fst snd]. unfold eventsSince.
  destruct (FsCheckInterval lib <? time.Sub n1 (lastChecked m (ID lib)))%Z
    eqn:Hlt; [apply Z.ltb_lt in Hlt | apply Z.ltb_ge in Hlt];
    [destruct (workerCompleted m (ID lib)) eqn:Hfin|]; cbn [andb trace].
  - rewrite drop_app_length. split; [done|]. intros Hnot. by destruct Hnot.
  - rewrite drop_all. split; [intros [_ ?]; discriminate | done].
  - rewrite drop_all. split; [intros [? _]; lia | done].
Qed.

(** The loop over the fetched list reaches every library, and launches
    a worker for it exactly when it is due. *)
Lemma checkLibraries_launches_iff_due pre lib post m :
  let m1 := (checkLibraries pre m).2 in
  let m2 := (checkLibrary lib m1).2 in
  let elapsed := time.Sub (Now (world m1)).1 (lastChecked m1 (ID lib)) in
  let due := (FsCheckInterval lib < elapsed)%Z /\
             workerCompleted m1 (ID lib) = true in
  checkLibraries (pre ++ lib :: post) m = checkLibraries post m2 /\
  (Go lib ∈ eventsSince m1 m2 <-> due) /\
  (due ->
   eventsSince m1 m2 = [initiateLog lib; Go lib] /\
   lastCheckedTimes m2 !! ID lib = Some (Now (Now (world m1)).2).1 /\
   workerCompletedMap m2 !! ID lib = Some false /\
   launches m2 =
     launches m1 ++ [{| launchLib := lib;
                        launchTimes := lastCheckedTimes m2;
                        launchFlags := workerCompletedMap m2 |}]) /\
  (~ due -> eventsSince m1 m2 = [] /\ launches m2 = launches m1).
Proof.
  intros m1 m2 elapsed due.
  split; [by rewrite checkLibraries_app, checkLibraries_cons|].
  pose proof (checkLibrary_unfold lib m1) as Hbody. cbn zeta in Hbody.
  subst m2 elapsed due.
  destruct (Now (world m1)) as [n1 w1]. cbn [fst snd].
  destruct (Now w1) as [n2 w2]. cbn [fst snd].
  rewrite Hbody. cbn [fst snd]. unfold eventsSince.
  destruct (FsCheckInterval lib <? time.Sub n1 (lastChecked m1 (ID lib)))%Z
    eqn:Hlt; [apply Z.ltb_lt in Hlt | apply Z.ltb_ge in Hlt];
    [destruct (workerCompleted m1 (ID lib)) eqn:Hfin|];
    cbn [andb trace lastCheckedTimes workerCompletedMap launches].
  - rewrite drop_app_length. split; [|split].
    + split; [by intros _ | intros _; set_solver].
    + intros _. by rewrite !lookup_insert_eq.
    + intros Hnot. by destruct Hnot.
  - rewrite drop_all. split; [|split].
    + split; [intros Hin; by apply elem_of_nil in Hin
             | intros [_ ?]; discriminate].
    + intros [_ ?]; discriminate.
    + done.
  - rewrite drop_all. split; [|split].
    + split; [intros Hin; by apply elem_of_nil in Hin | intros [? _]; lia].
    + intros [? _]; lia.
    + done.
Qed.

(** C3: on a tick on which the data store returns the list of libraries,
    the loop body runs for every library of the list, in order, and for
    each of them a scan worker is launched if and only if the time elapsed
    since the last check exceeds [FsCheckInterval] and the
    worker-completed flag is true (both as the loop body finds them,
    defaults included).  When the worker is launched, the last-checked
    time has been set to the current time and the flag to false before
    the [go] statement runs: the worker is launched with the two maps as
    the loop body leaves them, in which the library's last-checked time is
    the current time and its flag is false.  Otherwise nothing is recorded
    for the library and no worker is launched. *)
Theorem scan_worker_launched_iff_due m pre lib post w :
  Libraries (world m) = ((pre ++ lib :: post, None), w) ->
  let m1 := (checkLibraries pre (advance w [CallLibraries] m)).2 in
  let m2 := (checkLibrary lib m1).2 in
  let elapsed := time.Sub (Now (world m1)).1 (lastChecked m1 (ID lib)) in
  let due := (FsCheckInterval lib < elapsed)%Z /\
             workerCompleted m1 (ID lib) = true in
  tick m = ((), record [Sleep time.Second] (checkLibraries post m2).2) /\
  (Go lib ∈ eventsSince m1 m2 <-> due) /\
  (due ->
   eventsSince m1 m2 = [initiateLog lib; Go lib] /\
   lastCheckedTimes m2 !! ID lib = Some (Now (Now (world m1)).2).1 /\
   workerCompletedMap m2 !! ID lib = Some false /\
   launches m2 =
     launches m1 ++ [{| launchLib := lib;
                        launchTimes := lastCheckedTimes m2;
                        launchFlags := workerCompletedMap m2 |}]) /\
  (~ due -> eventsSince m1 m2 = [] /\ launches m2 = launches m1).
Proof.
  intros Hlibs m1 m2 elapsed due.
  destruct (checkLibraries_launches_iff_due pre lib post
              (advance w [CallLibraries] m)) as (Hloop & Hrest).
  split; [|exact Hrest].
  rewrite (tick_checks_libraries _ _ _ Hlibs). by rewrite Hloop.
Qed.

(** The manager keeps [neverSeenInBoth]: it holds of a new manager, the
    loop body keeps it, and so does a worker run for a library that the
    loop has met (the only ones it launches a worker for). *)
Lemma NewManager_neverSeenInBoth (w : World) :
  neverSeenInBoth (NewManager (FileMetadata:=FileMetadata) (Settings:=Settings) w).
Proof. intros id _. apply lookup_empty. Qed.

Lemma checkLibrary_neverSeenInBoth lib m :
  neverSeenInBoth m -> neverSeenInBoth (checkLibrary lib m).2.
Proof.
  intros Hm id.
  pose proof (checkLibrary_unfold lib m) as Hbody. cbn zeta in Hbody.
  destruct (Now (world m)) as [n1 w1]. destruct (Now w1) as [n2 w2].
  rewrite Hbody. cbn [snd].
  destruct (_ && _); cbn [lastCheckedTimes workerCompletedMap];
    (destruct (decide (ID lib = id)) as [->|Hne];
     [rewrite !lookup_insert_eq; discriminate
     |rewrite !lookup_insert_ne by done; apply Hm]).
Qed.

Lemma checkLibraries_neverSeenInBoth allLibraries m :
  neverSeenInBoth m -> neverSeenInBoth (checkLibraries allLibraries m).2.
Proof.
  revert m; induction allLibraries as [|lib libs IH]; intros m Hm; [done|].
  rewrite checkLibraries_cons. by apply IH, checkLibrary_neverSeenInBoth.
Qed.

Lemma updateLibraryQueue_neverSeenInBoth lib m :
  is_Some (lastCheckedTimes m !! ID lib) ->
  neverSeenInBoth m -> neverSeenInBoth (updateLibraryQueue lib m).2.
Proof.
  intros [t Ht] Hm id.
  destruct (VideoFiles (Folder lib) (world m)) as [[videos [e|]] w] eqn:Hfiles.
  - rewrite (updateLibraryQueue_no_videos _ _ _ _ _ Hfiles). cbn.
    intros Hid. destruct (decide (ID lib = id)) as [<-|Hne]; [congruence|].
    rewrite lookup_insert_ne by done. by apply Hm.
  - rewrite (updateLibraryQueue_scan _ _ _ _ Hfiles). cbn zeta. cbn [snd].
    destruct (scan_frame videos lib (advance w [CallVideoFiles (Folder lib)] m))
      as (_ & Htimes & Hflags & _).
    cbn [lastCheckedTimes workerCompletedMap setWorkerCompleted].
    rewrite Htimes, Hflags. cbn.
    intros Hid. destruct (decide (ID lib = id)) as [<-|Hne]; [congruence|].
    rewrite lookup_insert_ne by done. by apply Hm.
Qed.

(** C4, as amended: for a library whose ID has no entry in
    [lastCheckedTimes] (never seen before, so that it has none in
    [workerCompletedMap] either), the loop body initialises the
    last-checked time to the epoch, and launches the scan on that very
    tick provided the time elapsed since the epoch exceeds the library's
    [FsCheckInterval]. *)
Theorem never_seen_library_scanned_when_interval_elapsed lib m :
  neverSeenInBoth m ->
  lastCheckedTimes m !! ID lib = None ->
  lookupLastChecked (ID lib) m =
    (time.Unix 0 0, setLastChecked (ID lib) (time.Unix 0 0) m) /\
  ((FsCheckInterval lib < time.Sub (Now (world m)).1 (time.Unix 0 0))%Z ->
   eventsSince m (checkLibrary lib m).2 = [initiateLog lib; Go lib]).
Proof.
  intros Hseen Htimes. split.
  - unfold lookupLastChecked. by rewrite Htimes.
  - intros Hdue.
    destruct (checkLibrary_events lib m) as [Hlaunch _].
    apply Hlaunch. unfold lastChecked, workerCompleted.
    rewrite Htimes, (Hseen _ Htimes). by split.
Qed.

(** *** The entry points that are not implemented *)

(** [PopNewJob] logs and returns the zero job, whatever the libraries
    hold; it does not call the data store. *)
Lemma PopNewJob_unfold m :
  PopNewJob m =
  (zeroJob, advance (world m) [Logged Critical "Not implemented" []] m).
Proof. reflexivity. Qed.

(** [UpdateLibrarySettings] logs and changes nothing. *)
Lemma UpdateLibrarySettings_unfold updates m :
  UpdateLibrarySettings updates m =
  ((), advance (world m) [Logged Critical "Not implemented" []] m).
Proof. reflexivity. Qed.
End Properties.

(** ** The properties on the in-memory world *)

Import Fixture.

(** Spec 8, mask correctness: with the masks [/tmp/] and [_partial], the
    path [/movies/tmp/a.mkv] is skipped and [/movies/a.mkv] is not. *)
Example masked_path_is_skipped :
  processVideo "/movies/tmp/a.mkv" maskedLibrary (NewManager emptyWorld) =
  (maskedLibrary,
   advance emptyWorld [maskLog "/movies/tmp/a.mkv" "/tmp/"]
     (NewManager emptyWorld)).
Proof. reflexivity. Qed.

Example unmasked_path_is_queued :
  queuePaths
    (Queue (processVideo "/movies/a.mkv" maskedLibrary (NewManager emptyWorld)).1)
  = ["/movies/a.mkv"].
Proof. reflexivity. Qed.

(** Spec 8, isolation scenario, as the code has it: of three discovered
    files the second cannot be read; jobs are queued for all three, the
    second with the metadata the failed read returned, and the flag is
    true at the end. *)
Example unreadable_file_is_queued_too :
  let r := updateLibraryQueue plainLibrary (NewManager unreadableWorld) in
  map (fun j => (Path j, Metadata j)) (Queue r.1) =
    [("/movies/a.mkv", "metadata of /movies/a.mkv");
     ("/movies/b.mkv", "");
     ("/movies/c.mkv", "metadata of /movies/c.mkv")]
  /\ workerCompletedMap r.2 !! 1%Z = Some true.
Proof. split; reflexivity. Qed.

(** C1: [PopNewJob] is not implemented.  With library A (priority 5,
    queue [job1]) and library B (priority 10, queue [job2]) in the store,
    the required answer is job2; the code logs "Not implemented", does not
    call the data store and returns the zero job. *)
Theorem PopNewJob_returns_zero_job :
  PopNewJob priorityManager =
    (zeroJob,
     advance priorityWorld [Logged Critical "Not implemented" []] priorityManager)
  /\ requiredPopNewJob (libraries priorityWorld) = Some job2
  /\ (PopNewJob priorityManager).1 <> job2.
Proof. split; [reflexivity|]. split; [reflexivity|]. discriminate. Qed.

(** C9: [UpdateLibrarySettings] is not implemented.  With library 1
    (three queued jobs) in the store and a replacement record for ID 1,
    the required result keeps the ID and the three jobs and takes every
    other field from the replacement; the code logs "Not implemented" and
    leaves the stored library as it was. *)
Theorem UpdateLibrarySettings_changes_nothing :
  UpdateLibrarySettings settingsUpdate settingsManager =
    ((), advance settingsWorld [Logged Critical "Not implemented" []]
           settingsManager)
  /\ libraries (world (UpdateLibrarySettings settingsUpdate settingsManager).2)
     = [queuedLibrary]
  /\ requiredUpdateLibrarySettings settingsUpdate [queuedLibrary]
     = [{| ID := 1; Folder := "/series"; Priority := 9;
           FsCheckInterval := (60 * time.Second)%Z;
           Queue := [job1; job2; job3];
           PathMasks := ["_partial"]; CommandDeciderSettings := "av1" |}]
  /\ requiredUpdateLibrarySettings settingsUpdate [queuedLibrary]
     <> [queuedLibrary].
Proof.
  split; [reflexivity|]. split; [reflexivity|].
  split; [by vm_compute|]. vm_compute. discriminate.
Qed.

(** C4 as stated fails: a library never seen before, with the positive
    interval of a hundred years, is not scanned on the tick of
    2026-11-01: fewer than a hundred years have passed since the epoch. *)
Lemma century_interval_is_not_scanned :
  lastCheckedTimes centuryManager !! ID centuryLibrary = None
  /\ workerCompletedMap centuryManager !! ID centuryLibrary = None
  /\ (0 < FsCheckInterval centuryLibrary)%Z
  /\ eventsSince centuryManager (checkLibrary centuryLibrary centuryManager).2 = []
  /\ trace (tick centuryManager).2 = [CallLibraries; Sleep time.Second]
  /\ lastCheckedTimes (tick centuryManager).2 !! ID centuryLibrary
     = Some (time.Unix 0 0).
Proof. repeat split; by vm_compute. Qed.

Lemma dedup_across_scan_rounds_witness :
  NoDup (queuePaths [job1])
  /\ NoDup (queuePaths
              (Queue (updateLibraryQueue libraryA (NewManager saveErrorWorld)).1)).
Proof.
  assert (Hq : NoDup (queuePaths [job1])) by apply NoDup_singleton.
  split; [exact Hq|].
  apply (proj1 (dedup_across_scan_rounds [job1] Hq)).
  apply (rounds_finished [job1] libraryA (NewManager saveErrorWorld)).
  apply rounds_none.
Defined.

Lemma scan_worker_launched_witness :
  Go libraryB ∈
  eventsSince (checkLibraries [libraryA] (advance priorityWorld [CallLibraries] priorityManager)).2
    (checkLibrary libraryB
       (checkLibraries [libraryA]
          (advance priorityWorld [CallLibraries] priorityManager)).2).2.
Proof.
  destruct (scan_worker_launched_iff_due priorityManager [libraryA] libraryB []
              priorityWorld) as (_ & Hiff & _); [reflexivity|].
  apply Hiff. by vm_compute.
Defined.

Lemma never_seen_library_witness :
  lookupLastChecked (ID plainLibrary) plainManager =
    (time.Unix 0 0, setLastChecked (ID plainLibrary) (time.Unix 0 0) plainManager)
  /\ eventsSince plainManager (checkLibrary plainLibrary plainManager).2
     = [initiateLog plainLibrary; Go plainLibrary].
Proof.
  destruct (never_seen_library_scanned_when_interval_elapsed plainLibrary
              plainManager) as [Hinit Hlaunch].
  - intros id _. reflexivity.
  - reflexivity.
  - split; [exact Hinit|]. apply Hlaunch. by vm_compute.
Defined.

Lemma read_error_witness :
  Queue (processVideo "/movies/b.mkv" plainLibrary (NewManager unreadableWorld)).1
  = Queue plainLibrary
    ++ [newJob "u1" "/movies/b.mkv" ["ffmpeg"; "hevc"; ""] ""]
  /\
  processVideo "/movies/b.mkv" plainLibrary (NewManager unreadableWorld) =
  (withQueue plainLibrary
     [newJob "u1" "/movies/b.mkv" ["ffmpeg"; "hevc"; ""] ""],
   advance (setLibraries [] (setUUIDs ["u2"; "u3"] unreadableWorld))
     [CallIsPathDispatched "/movies/b.mkv";
      CallRead "/movies/b.mkv";
      Logged Error "Skipping %v because of error: %v"
        [ArgString "/movies/b.mkv"; ArgString "unreadable file"];
      CallDecide "" "hevc";
      Logged Info "Added %v to Library %v's queue"
        [ArgString "/movies/b.mkv"; ArgInt 1];
      CallSaveLibrary
        (withQueue plainLibrary
           [newJob "u1" "/movies/b.mkv" ["ffmpeg"; "hevc"; ""] ""])]
     (NewManager unreadableWorld)).
Proof.
  destruct (read_error_does_not_skip "/movies/b.mkv" plainLibrary
              (NewManager unreadableWorld) unreadableWorld ""
              "unreadable file" unreadableWorld ["ffmpeg"; "hevc"; ""] None
              unreadableWorld) as [_ Hpush]; [reflexivity ..|].
  destruct (Hpush eq_refl) as (Hqueue & _ & Hstep).
  split; [exact Hqueue | exact Hstep].
Defined.

Lemma dispatch_error_witness :
  forRange processVideo
    (["/movies/a.mkv"] ++ "/movies/b.mkv" :: ["/movies/c.mkv"])
    plainLibrary (NewManager dispatchErrorWorld) =
  forRange processVideo ["/movies/c.mkv"]
    (forRange processVideo ["/movies/a.mkv"] plainLibrary
       (NewManager dispatchErrorWorld)).1
    (advance (setLibraries [] (setUUIDs ["u2"; "u3"] dispatchErrorWorld))
       [CallIsPathDispatched "/movies/b.mkv";
        Logged Error "store unavailable" []]
       (forRange processVideo ["/movies/a.mkv"] plainLibrary
          (NewManager dispatchErrorWorld)).2)
  /\ queuePaths
       (Queue (forRange processVideo threeFiles plainLibrary
                 (NewManager dispatchErrorWorld)).1)
     = ["/movies/a.mkv"; "/movies/c.mkv"].
Proof.
  split; [|reflexivity].
  apply (dispatch_error_skips_one_path ["/movies/a.mkv"] "/movies/b.mkv"
           ["/movies/c.mkv"] plainLibrary (NewManager dispatchErrorWorld)
           false "store unavailable"); reflexivity.
Defined.

Lemma save_error_witness :
  newJob "u2" "/movies/b.mkv"
    ["ffmpeg"; "hevc"; "metadata of /movies/b.mkv"] "metadata of /movies/b.mkv"
  ∈ Queue (forRange processVideo
             (["/movies/a.mkv"] ++ "/movies/b.mkv" :: ["/movies/c.mkv"])
             plainLibrary (NewManager saveErrorWorld)).1.
Proof.
  edestruct (save_error_is_discarded ["/movies/a.mkv"] "/movies/b.mkv"
               ["/movies/c.mkv"] plainLibrary (NewManager saveErrorWorld))
    as [_ Hin]; [reflexivity .. | exact Hin].
Defined.

(** ** More of the manager *)

Section Coverage.
Context {FileMetadata : Type} `{!Zero FileMetadata} {Settings World : Type}.
Context `{!LibraryManagerDataStorer FileMetadata Settings World,
          !MetadataReader FileMetadata World,
          !CommandDecider FileMetadata Settings World,
          !videoFileser World, !Runtime World}.

Implicit Types (lib : Library FileMetadata Settings).
Implicit Types (m : Manager FileMetadata Settings World).
Implicit Types (q : LibraryQueue FileMetadata).
Implicit Types (videoFilepath v : string).
Implicit Types (evs : list (Event FileMetadata Settings)).

(** *** The events of a scan *)

Lemma unmasked_withQueue lib q videoFilepath :
  unmasked (withQueue lib q) videoFilepath = unmasked lib videoFilepath.
Proof. reflexivity. Qed.

Lemma updateLibraryQueue_events lib m videos w :
  VideoFiles (Folder lib) (world m) = ((videos, None), w) ->
  let m0 := advance w [CallVideoFiles (Folder lib)] m in
  eventsSince m (updateLibraryQueue lib m).2 =
  CallVideoFiles (Folder lib)
    :: eventsSince m0 (forRange processVideo videos lib m0).2.
Proof.
  intros Hfiles m0.
  rewrite (updateLibraryQueue_scan _ _ _ _ Hfiles). cbn zeta. cbn [snd].
  rewrite eventsSince_setWorkerCompleted. fold m0.
  destruct (scan_frame videos lib m0) as (_ & _ & _ & Htr).
  unfold eventsSince at 1. rewrite Htr. cbn [trace m0 advance].
  by rewrite <- app_assoc, drop_app_length.
Qed.

(** What one step of the loop adds to the queue, asks of the store and
    saves. *)
Lemma processVideo_summary videoFilepath lib m :
  let r := processVideo videoFilepath lib m in
  let evs := eventsSince m r.2 in
  exists added,
    Queue r.1 = Queue lib ++ added /\
    dispatchQueries evs = (if unmasked lib videoFilepath then [videoFilepath] else []) /\
    ((added = [] /\ savedLibraries evs = []) \/
     (queuePaths added = [videoFilepath] /\ savedLibraries evs = [r.1] /\
      unmasked lib videoFilepath = true /\
      videoFilepath ∉ queuePaths (Queue lib))).
Proof.
  destruct (processVideo_outcome videoFilepath lib m) as
    [v Hm|b e w Hm Hd|b w Hm Hd Hs|w1 md rerr w2 c e w3 Hm Hd Hi Hr Hc
    |w1 md rerr w2 c w3 u w4 serr w5 Hm Hd Hi Hr Hc Hu Hs];
    cbn zeta; cbn [fst snd]; rewrite eventsSince_advance; unfold unmasked;
    rewrite Hm.
  - exists []. rewrite app_nil_r. repeat split. by left.
  - exists []. rewrite app_nil_r. repeat split. by left.
  - exists []. rewrite app_nil_r. repeat split. by left.
  - exists []. rewrite app_nil_r. destruct rerr; repeat split; by left.
  - exists [newJob u videoFilepath c md].
    destruct rerr;
      (split; [reflexivity|]; split; [reflexivity|]; right;
       split; [reflexivity|]; split; [reflexivity|]; split; [reflexivity|];
       intros Hin; apply InQueuePath_paths in Hin; congruence).
Qed.

Lemma scan_summary videos lib m :
  let r := forRange processVideo videos lib m in
  let evs := eventsSince m r.2 in
  exists added,
    Queue r.1 = Queue lib ++ added /\
    dispatchQueries evs = List.filter (unmasked lib) videos /\
    queuePaths added `sublist_of` videos /\
    Forall (fun p => unmasked lib p = true /\ p ∉ queuePaths (Queue lib))
      (queuePaths added) /\
    length (savedLibraries evs) = length added /\
    Forall (fun saved => saved = withQueue lib (Queue saved) /\
                         Queue lib `prefix_of` Queue saved /\
                         Queue saved `prefix_of` Queue r.1)
      (savedLibraries evs) /\
    (added <> [] -> last (savedLibraries evs) = Some r.1).
Proof.
  revert lib m; induction videos as [|v videos IH]; intros lib m.
  - cbn zeta. cbn [forRange]. unfold eventsSince. cbn. rewrite drop_all.
    exists []. rewrite app_nil_r.
    split; [done|]. split; [done|]. split; [constructor|].
    split; [constructor|]. split; [done|]. split; [constructor|]. done.
  - cbn zeta.
    pose proof (eventsSince_scan_app [v] videos lib m) as Happ.
    cbn zeta in Happ. change ([v] ++ videos) with (v :: videos) in Happ.
    rewrite Happ. clear Happ. rewrite forRange_cons.
    change (forRange processVideo [v] lib m) with
      (let (b', s') := processVideo v lib m in (b', s')).
    destruct (processVideo_summary v lib m) as (added1 & Hq1 & Hd1 & Hcase).
    destruct (processVideo_frame v lib m) as (Hl1 & _).
    destruct (processVideo v lib m) as [lib1 m1] eqn:Hstep.
    cbn [fst snd] in *.
    destruct (IH lib1 m1) as (added2 & Hq2 & Hd2 & Hsub & Hall & Hlen & Hsaved & Hlast).
    cbn zeta in *.
    set (r := forRange processVideo videos lib1 m1) in *.
    assert (Hmask : forall p, unmasked lib1 p = unmasked lib p).
    { intros p. rewrite Hl1. apply unmasked_withQueue. }
    assert (Hfield : forall saved,
              saved = withQueue lib1 (Queue saved) ->
              saved = withQueue lib (Queue saved)).
    { intros saved Hs. rewrite Hs at 1. rewrite Hl1. reflexivity. }
    exists (added1 ++ added2).
    unfold dispatchQueries, savedLibraries in *. rewrite !omap_app.
    split; [by rewrite Hq2, Hq1, app_assoc|].
    split.
    { rewrite Hd1, Hd2. cbn [List.filter]. rewrite <- (Hmask v).
      rewrite (List.filter_ext _ _ Hmask).
      rewrite Hmask. by destruct (unmasked lib v). }
    destruct Hcase as [[-> Hs1]|(Hp1 & Hs1 & Hu1 & Hn1)].
    + rewrite app_nil_r in Hq1. rewrite Hs1. cbn [app].
      split; [by apply sublist_cons_r; left|].
      split.
      { eapply Forall_impl; [exact Hall|]. intros p [Hu Hn].
        rewrite Hmask in Hu. by rewrite Hq1 in Hn. }
      split; [exact Hlen|].
      split.
      { eapply Forall_impl; [exact Hsaved|]. intros saved (Hs & Hpre & Hpost).
        rewrite Hq1 in Hpre. auto. }
      exact Hlast.
    + rewrite Hs1. unfold queuePaths in *. rewrite map_app, Hp1. cbn [app].
      split; [by apply sublist_skip|].
      split.
      { constructor; [done|]. eapply Forall_impl; [exact Hall|].
        intros p [Hu Hn]. rewrite Hmask in Hu. split; [done|].
        intros Hin. apply Hn. rewrite Hq1, map_app. apply elem_of_app. by left. }
      split; [cbn; rewrite length_app; destruct added1 as [|? [|? ?]];
              try discriminate; cbn; by rewrite Hlen|].
      split.
      { constructor.
        - split; [by rewrite Hl1 at 1|].
          split; [rewrite Hq1; by apply prefix_app_r|].
          rewrite Hq2. by apply prefix_app_r.
        - eapply Forall_impl; [exact Hsaved|].
          intros saved (Hs & Hpre & Hpost). repeat split; auto.
          etrans; [|exact Hpre]. rewrite Hq1. by apply prefix_app_r. }
      intros _. destruct added2 as [|j added2].
      * rewrite app_nil_r in Hq2.
        cbn in Hlen. apply nil_length_inv in Hlen. rewrite Hlen.
        cbn. f_equal.
        destruct (scan_frame videos lib1 m1) as (Hfr & _). fold r in Hfr.
        rewrite Hfr, Hq2. symmetry. apply withQueue_same.
      * rewrite last_cons. by rewrite Hlast.
Qed.

(** *** The scan worker *)

(** X1: when the command decider returns an error for a discovered path
    (it declines, or it fails), that path alone is skipped: the error is
    logged at debug level, nothing is pushed or saved, and the loop goes
    on with every path that follows. *)
Theorem decider_error_skips_one_path pre videoFilepath rest lib m w1
    fMetadata rerr w2 commandSlice e w3 :
  let r := forRange processVideo pre lib m in
  maskedOutBy videoFilepath (PathMasks lib) = None ->
  IsPathDispatched videoFilepath (world r.2) = ((false, None), w1) ->
  InQueuePath (Queue r.1) (pathJob videoFilepath) = false ->
  Read videoFilepath w1 = ((fMetadata, rerr), w2) ->
  Decide fMetadata (CommandDeciderSettings lib) w2 = ((commandSlice, Some e), w3) ->
  forRange processVideo (pre ++ videoFilepath :: rest) lib m =
  forRange processVideo rest r.1
    (advance w3
       ([CallIsPathDispatched videoFilepath; CallRead videoFilepath]
        ++ readLog videoFilepath rerr
        ++ [CallDecide fMetadata (CommandDeciderSettings lib);
            Logged Debug "Skipping %v because CommandDecider returned error: %v"
              [ArgString videoFilepath; ArgString e]]) r.2).
Proof.
  intros r Hmask Hdisp Hq Hread Hdec.
  rewrite <- (scan_PathMasks pre lib m) in Hmask. fold r in Hmask.
  rewrite <- (scan_settings pre lib m) in Hdec |- *. fold r in Hdec |- *.
  rewrite forRange_app, forRange_cons. fold r.
  by rewrite (processVideo_is _ _ _ _
                (video_declined _ _ _ w1 fMetadata rerr w2 commandSlice e w3
                   Hmask Hdisp Hq Hread Hdec)).
Qed.

(** X2: a discovered path that the data store reports as dispatched, or
    that already has a job on the queue, costs the one dispatch query and
    nothing else: the metadata reader, the command decider and
    [SaveLibrary] are not called, nothing is logged, the queue stays as it
    was, and the loop goes on with the paths that follow. *)
Theorem known_path_costs_one_query pre videoFilepath rest lib m b w :
  let r := forRange processVideo pre lib m in
  maskedOutBy videoFilepath (PathMasks lib) = None ->
  IsPathDispatched videoFilepath (world r.2) = ((b, None), w) ->
  b = true \/ videoFilepath ∈ queuePaths (Queue r.1) ->
  forRange processVideo (pre ++ videoFilepath :: rest) lib m =
  forRange processVideo rest r.1
    (advance w [CallIsPathDispatched videoFilepath] r.2).
Proof.
  intros r Hmask Hdisp Hknown.
  rewrite <- (scan_PathMasks pre lib m) in Hmask. fold r in Hmask.
  rewrite forRange_app, forRange_cons. fold r.
  assert (Hskip : b || InQueuePath (Queue r.1) (pathJob videoFilepath) = true).
  { apply orb_true_iff. destruct Hknown as [->|Hin]; [by left|right].
    by apply InQueuePath_paths. }
  by rewrite (processVideo_is _ _ _ _ (video_filtered _ _ _ b w Hmask Hdisp Hskip)).
Qed.

(** X3: when the discoverer returns an error, whatever paths it returns
    with it are ignored: the worker logs the error and ends with the
    library as it was, having called nothing but the discoverer, and with
    the worker-completed flag true. *)
Theorem discovery_error_ends_the_scan lib m discoveredVideos e w :
  VideoFiles (Folder lib) (world m) = ((discoveredVideos, Some e), w) ->
  let r := updateLibraryQueue lib m in
  r.1 = lib /\
  eventsSince m r.2 = [CallVideoFiles (Folder lib); Logged Error e []] /\
  world r.2 = w /\
  lastCheckedTimes r.2 = lastCheckedTimes m /\
  workerCompletedMap r.2 = <[ID lib := true]> (workerCompletedMap m).
Proof.
  intros Hfiles r. subst r.
  rewrite (updateLibraryQueue_no_videos _ _ _ _ _ Hfiles). cbn [fst snd].
  rewrite eventsSince_setWorkerCompleted, eventsSince_advance. done.
Qed.

Lemma updateLibraryQueue_maps lib m :
  let r := updateLibraryQueue lib m in
  lastCheckedTimes r.2 = lastCheckedTimes m /\
  workerCompletedMap r.2 = <[ID lib := true]> (workerCompletedMap m) /\
  r.1 = withQueue lib (Queue r.1).
Proof.
  cbn zeta.
  destruct (VideoFiles (Folder lib) (world m)) as [[videos [e|]] w] eqn:Hfiles.
  - rewrite (updateLibraryQueue_no_videos _ _ _ _ _ Hfiles). cbn [fst snd].
    by rewrite withQueue_same.
  - rewrite (updateLibraryQueue_scan _ _ _ _ Hfiles). cbn zeta. cbn [fst snd].
    destruct (scan_frame videos lib (advance w [CallVideoFiles (Folder lib)] m))
      as (Hlib & Htimes & Hflags & _).
    cbn [lastCheckedTimes workerCompletedMap setWorkerCompleted].
    by rewrite Htimes, Hflags.
Qed.

(** X4: a run of the worker does not touch [lastCheckedTimes], changes
    [workerCompletedMap] at the ID of its library only (to true), and
    changes no field of its library but the queue. *)
Theorem worker_changes_flag_and_queue_only lib m :
  let r := updateLibraryQueue lib m in
  lastCheckedTimes r.2 = lastCheckedTimes m /\
  (forall id, id <> ID lib ->
     workerCompletedMap r.2 !! id = workerCompletedMap m !! id) /\
  ID r.1 = ID lib /\ Folder r.1 = Folder lib /\ Priority r.1 = Priority lib /\
  FsCheckInterval r.1 = FsCheckInterval lib /\ PathMasks r.1 = PathMasks lib /\
  CommandDeciderSettings r.1 = CommandDeciderSettings lib.
Proof.
  destruct (updateLibraryQueue_maps lib m) as (Htimes & Hflags & Hlib).
  cbn zeta in *. split; [exact Htimes|]. split.
  - intros id Hne. rewrite Hflags. by apply lookup_insert_ne.
  - rewrite Hlib. done.
Qed.

(** X5: the jobs that were on the queue when the worker started are still
    there when it ends, in the same order and before any new job: the
    queue the worker began with is a prefix of the queue it ends with. *)
Theorem worker_keeps_queued_jobs_in_order lib m :
  Queue lib `prefix_of` Queue (updateLibraryQueue lib m).1.
Proof.
  destruct (VideoFiles (Folder lib) (world m)) as [[videos [e|]] w] eqn:Hfiles.
  - by rewrite (updateLibraryQueue_no_videos _ _ _ _ _ Hfiles).
  - rewrite (updateLibraryQueue_scan _ _ _ _ Hfiles). cbn zeta. cbn [fst].
    destruct (scan_queue_grows videos lib
                (advance w [CallVideoFiles (Folder lib)] m)) as [added ->].
    by apply prefix_app_r.
Qed.

(** X6: the jobs a run of the worker adds are for discovered paths, in
    the order of discovery and at most one per discovered occurrence (their
    paths are a sublist of the discovered paths); none of these paths
    contains a mask of the library and none had a job on the queue the
    worker began with. *)
Theorem added_jobs_are_for_discovered_unmasked_paths lib m videos w :
  VideoFiles (Folder lib) (world m) = ((videos, None), w) ->
  exists added,
    Queue (updateLibraryQueue lib m).1 = Queue lib ++ added /\
    queuePaths added `sublist_of` videos /\
    Forall (fun p => unmasked lib p = true /\ p ∉ queuePaths (Queue lib))
      (queuePaths added).
Proof.
  intros Hfiles.
  rewrite (updateLibraryQueue_scan _ _ _ _ Hfiles). cbn zeta. cbn [fst].
  destruct (scan_summary videos lib (advance w [CallVideoFiles (Folder lib)] m))
    as (added & Hq & _ & Hsub & Hall & _).
  by exists added.
Qed.

(** X7: [SaveLibrary] is called once for every job pushed and never
    otherwise.  Every library handed to it is the worker's library with a
    queue that extends the one the worker began with and is a prefix of
    the one it ends with; and when the run added a job, the last library
    saved is the library the worker ends with. *)
Theorem every_push_is_saved lib m videos w :
  VideoFiles (Folder lib) (world m) = ((videos, None), w) ->
  let r := updateLibraryQueue lib m in
  let saved := savedLibraries (eventsSince m r.2) in
  length (Queue r.1) = (length (Queue lib) + length saved)%nat /\
  Forall (fun s => s = withQueue lib (Queue s) /\
                   Queue lib `prefix_of` Queue s /\
                   Queue s `prefix_of` Queue r.1) saved /\
  (Queue r.1 <> Queue lib -> last saved = Some r.1).
Proof.
  intros Hfiles r saved. subst r saved.
  rewrite (updateLibraryQueue_events _ _ _ _ Hfiles). cbn zeta.
  rewrite (updateLibraryQueue_scan _ _ _ _ Hfiles). cbn zeta. cbn [fst].
  destruct (scan_summary videos lib (advance w [CallVideoFiles (Folder lib)] m))
    as (added & Hq & _ & _ & _ & Hlen & Hsaved & Hlast).
  cbn zeta in *.
  change (savedLibraries (CallVideoFiles (Folder lib) :: ?evs))
    with (savedLibraries evs).
  rewrite Hq, length_app, Hlen. split; [done|]. split.
  - by rewrite <- Hq.
  - intros Hne. apply Hlast. intros ->. by rewrite app_nil_r in Hne.
Qed.

(** X8: the worker asks the data store about each discovered path that
    contains no mask, once per occurrence and in the order of discovery,
    and about no other path. *)
Theorem dispatch_queries_are_the_unmasked_paths lib m videos w :
  VideoFiles (Folder lib) (world m) = ((videos, None), w) ->
  dispatchQueries (eventsSince m (updateLibraryQueue lib m).2) =
  List.filter (unmasked lib) videos.
Proof.
  intros Hfiles.
  rewrite (updateLibraryQueue_events _ _ _ _ Hfiles). cbn zeta.
  destruct (scan_summary videos lib (advance w [CallVideoFiles (Folder lib)] m))
    as (added & _ & Hd & _).
  exact Hd.
Qed.

(** *** The scheduler loop, one body at a time *)

Lemma setWorld_advance m w : setWorld w m = advance w [] m.
Proof. unfold setWorld, advance. by rewrite app_nil_r. Qed.

Lemma launchedLibraries_app evs evs' :
  launchedLibraries (evs ++ evs') = launchedLibraries evs ++ launchedLibraries evs'.
Proof. apply omap_app. Qed.

Lemma launchedIDs_app evs evs' :
  launchedIDs (evs ++ evs') = launchedIDs evs ++ launchedIDs evs'.
Proof. unfold launchedIDs. by rewrite launchedLibraries_app, map_app. Qed.

Lemma librariesCalls_app evs evs' :
  librariesCalls (evs ++ evs') = (librariesCalls evs + librariesCalls evs')%nat.
Proof. unfold librariesCalls. by rewrite omap_app, length_app. Qed.

Lemma sleeps_app evs evs' : sleeps (evs ++ evs') = sleeps evs ++ sleeps evs'.
Proof. apply omap_app. Qed.

Lemma launchedIDs_quiet evs :
  launchedLibraries evs = [] -> launchedIDs evs = [].
Proof. unfold launchedIDs. by intros ->. Qed.

(** The two ways through the loop body: the worker is launched, or
    nothing is recorded and the maps hold what the body worked with. *)
Lemma checkLibrary_cases lib m :
  let m2 := (checkLibrary lib m).2 in
  let t := lastChecked m (ID lib) in
  let due := (FsCheckInterval lib < time.Sub (Now (world m)).1 t)%Z /\
             workerCompleted m (ID lib) = true in
  (due /\
   lastCheckedTimes m2 =
     <[ID lib := (Now (Now (world m)).2).1]> (<[ID lib := t]> (lastCheckedTimes m)) /\
   workerCompletedMap m2 =
     <[ID lib := false]> (<[ID lib := true]> (workerCompletedMap m)) /\
   trace m2 = trace m ++ [initiateLog lib; Go lib])
  \/
  (~ due /\
   lastCheckedTimes m2 = <[ID lib := t]> (lastCheckedTimes m) /\
   workerCompletedMap m2 =
     <[ID lib := workerCompleted m (ID lib)]> (workerCompletedMap m) /\
   trace m2 = trace m).
Proof.
  cbn zeta.
  pose proof (checkLibrary_unfold lib m) as Hbody. cbn zeta in Hbody.
  destruct (Now (world m)) as [n1 w1]. cbn [fst snd].
  destruct (Now w1) as [n2 w2]. cbn [fst snd].
  rewrite Hbody. cbn [snd].
  destruct (FsCheckInterval lib <? time.Sub n1 (lastChecked m (ID lib)))%Z
    eqn:Hlt; [apply Z.ltb_lt in Hlt | apply Z.ltb_ge in Hlt];
    [destruct (workerCompleted m (ID lib)) eqn:Hfin|];
    cbn [andb trace lastCheckedTimes workerCompletedMap].
  - left. done.
  - right. split; [intros [_ ?]; discriminate | done].
  - right. split; [intros [? _]; lia | done].
Qed.

(** What holds of the manager before the loop and is kept by the loop
    body and by events other than [go] statements holds after the loop
    over the libraries, after a tick and after [Start]. *)
Lemma checkLibraries_keeps (I : Manager FileMetadata Settings World -> Prop) :
  (forall lib m, I m -> I (checkLibrary lib m).2) ->
  forall allLibraries m, I m -> I (checkLibraries allLibraries m).2.
Proof.
  intros Hbody allLibraries.
  induction allLibraries as [|lib libs IH]; intros m Hm; [done|].
  rewrite checkLibraries_cons. by apply IH, Hbody.
Qed.

Lemma tick_keeps (I : Manager FileMetadata Settings World -> Prop) :
  (forall m w evs, launchedLibraries evs = [] -> I m -> I (advance w evs m)) ->
  (forall lib m, I m -> I (checkLibrary lib m).2) ->
  forall m, I m -> I (tick m).2.
Proof.
  intros Hquiet Hbody m Hm.
  destruct (Libraries (world m)) as [[allLibraries [e|]] w] eqn:Hlibs.
  - replace (tick m) with
      ((), advance w [CallLibraries; Logged Error "%v" [ArgString e];
                      Sleep time.Second] m).
    + by apply Hquiet.
    + unfold tick, call, logger, emit, modify, mbind, State_bind. cbn.
      rewrite Hlibs. cbn. unfold advance, record, setWorld. cbn.
      by rewrite <- !app_assoc.
  - rewrite (tick_checks_libraries _ _ _ Hlibs). cbn [snd].
    apply (Hquiet _ (world _) [Sleep time.Second]); [done|].
    apply checkLibraries_keeps; [done|]. by apply Hquiet.
Qed.

Lemma Start_step ticks m :
  Start (S ticks) m =
  if (IsContextFinished (world m)).1
  then ((), setWorld (IsContextFinished (world m)).2 m)
  else Start ticks (tick (setWorld (IsContextFinished (world m)).2 m)).2.
Proof.
  cbn [Start]. unfold mbind, State_bind, contextFinished.
  destruct (IsContextFinished (world m)) as [[|] w]; cbn [fst snd]; [done|].
  by destruct (tick (setWorld w m)).
Qed.

Lemma Start_keeps (I : Manager FileMetadata Settings World -> Prop) :
  (forall m w evs, launchedLibraries evs = [] -> I m -> I (advance w evs m)) ->
  (forall lib m, I m -> I (checkLibrary lib m).2) ->
  forall ticks m, I m -> I (Start ticks m).2.
Proof.
  intros Hquiet Hbody ticks.
  induction ticks as [|ticks IH]; intros m Hm; [done|].
  rewrite Start_step.
  assert (Hw : forall w, I (setWorld w m)).
  { intros w. rewrite setWorld_advance. by apply Hquiet. }
  destruct (IsContextFinished (world m)).1; cbn [snd]; [apply Hw|].
  apply IH, tick_keeps; auto.
Qed.

Lemma tick_on_store_error m allLibraries e w :
  Libraries (world m) = ((allLibraries, Some e), w) ->
  tick m =
  ((), advance w [CallLibraries; Logged Error "%v" [ArgString e];
                  Sleep time.Second] m).
Proof.
  intros Hlibs.
  unfold tick, call, logger, emit, modify, mbind, State_bind. cbn.
  rewrite Hlibs. cbn. unfold advance, record, setWorld. cbn.
  by rewrite <- !app_assoc.
Qed.

(** X9: on a tick on which [Libraries] returns an error, whatever list
    comes with it is ignored: the error is logged, the loop sleeps one
    second, no worker is launched and neither map changes. *)
Theorem store_error_tick_launches_nothing m allLibraries e w :
  Libraries (world m) = ((allLibraries, Some e), w) ->
  tick m =
  ((), advance w [CallLibraries; Logged Error "%v" [ArgString e];
                  Sleep time.Second] m).
Proof. apply tick_on_store_error. Qed.

(** The events of the loop over the fetched libraries: [go] statements
    for a sublist of the libraries, no call of [Libraries], no sleep. *)
Lemma checkLibraries_events allLibraries m :
  exists evs,
    trace (checkLibraries allLibraries m).2 = trace m ++ evs /\
    launchedLibraries evs `sublist_of` allLibraries /\
    librariesCalls evs = 0%nat /\ sleeps evs = [].
Proof.
  revert m; induction allLibraries as [|lib libs IH]; intros m.
  - exists []. cbn. by rewrite app_nil_r.
  - rewrite checkLibraries_cons.
    destruct (IH (checkLibrary lib m).2) as (evs & Htr & Hsub & Hcalls & Hsleeps).
    destruct (checkLibrary_cases lib m) as [(_ & _ & _ & Hgo)|(_ & _ & _ & Hno)];
      cbn zeta in *.
    + exists ([initiateLog lib; Go lib] ++ evs).
      rewrite Htr, Hgo, <- app_assoc. split; [done|].
      rewrite launchedLibraries_app. cbn.
      split; [by apply sublist_skip|].
      unfold librariesCalls, sleeps in *. cbn. done.
    + exists evs. rewrite Htr, Hno. split; [done|].
      split; [by apply sublist_cons|done].
Qed.

(** The events of one tick. *)
Lemma tick_events m :
  exists evs,
    trace (tick m).2 = trace m ++ evs /\
    librariesCalls evs = 1%nat /\ sleeps evs = [time.Second] /\
    launchedLibraries evs `sublist_of` (Libraries (world m)).1.1.
Proof.
  destruct (Libraries (world m)) as [[allLibraries [e|]] w] eqn:Hlibs.
  - rewrite (tick_on_store_error _ _ _ _ Hlibs). cbn [snd].
    eexists. split; [reflexivity|]. repeat split. cbn. apply sublist_nil_l.
  - rewrite (tick_checks_libraries _ _ _ Hlibs). cbn [snd fst].
    destruct (checkLibraries_events allLibraries (advance w [CallLibraries] m))
      as (evs & Htr & Hsub & Hcalls & Hsleeps).
    exists ([CallLibraries] ++ evs ++ [Sleep time.Second]).
    cbn [trace record]. rewrite Htr. cbn [trace advance].
    rewrite <- !app_assoc. split; [done|].
    rewrite !librariesCalls_app, !sleeps_app, !launchedLibraries_app.
    rewrite Hcalls, Hsleeps. cbn. by rewrite app_nil_r.
Qed.

(** X10: on a tick, workers are launched only for libraries of the list
    the data store returned, in the order of the list and at most once per
    entry of the list. *)
Theorem launched_libraries_are_fetched_libraries m allLibraries w :
  Libraries (world m) = ((allLibraries, None), w) ->
  launchedLibraries (eventsSince m (tick m).2) `sublist_of` allLibraries.
Proof.
  intros Hlibs. destruct (tick_events m) as (evs & Htr & _ & _ & Hsub).
  rewrite Hlibs in Hsub. unfold eventsSince. by rewrite Htr, drop_app_length.
Qed.

(** *** The scheduler loop, over any number of ticks *)

(** X11: while the worker-completed flag of a library is false, the
    scheduler loop launches no worker for it, however many ticks pass and
    however long ago it was checked, and it leaves the flag false. *)
Theorem busy_library_is_not_launched id ticks m :
  workerCompletedMap m !! id = Some false ->
  workerCompletedMap (Start ticks m).2 !! id = Some false /\
  id ∉ launchedIDs (eventsSince m (Start ticks m).2).
Proof.
  intros Hbusy.
  pose (I := fun m' : Manager FileMetadata Settings World =>
    workerCompletedMap m' !! id = Some false /\
    exists evs, trace m' = trace m ++ evs /\ id ∉ launchedIDs evs).
  assert (HI : I (Start ticks m).2).
  { apply (Start_keeps I); subst I; cbn beta.
    - intros m' w evs' Hq (Hflag & evs & Htr & Hno). split; [exact Hflag|].
      exists (evs ++ evs'). cbn. rewrite Htr, <- app_assoc. split; [done|].
      by rewrite launchedIDs_app, (launchedIDs_quiet _ Hq), app_nil_r.
    - intros lib m' (Hflag & evs & Htr & Hno).
      destruct (checkLibrary_cases lib m')
        as [([_ Hfin] & _ & -> & ->)|(_ & _ & -> & ->)]; cbn zeta in *.
      + assert (Hne : ID lib <> id).
        { intros <-. unfold workerCompleted in Hfin. by rewrite Hflag in Hfin. }
        split; [by rewrite !lookup_insert_ne|].
        exists (evs ++ [initiateLog lib; Go lib]).
        rewrite Htr, <- app_assoc. split; [done|].
        rewrite launchedIDs_app. cbn. intros Hin.
        apply elem_of_app in Hin as [Hin|Hin]; [done|].
        apply list_elem_of_singleton in Hin. congruence.
      + split; [|by exists evs].
        destruct (decide (ID lib = id)) as [<-|Hne].
        * rewrite lookup_insert_eq. unfold workerCompleted. by rewrite Hflag.
        * by rewrite lookup_insert_ne.
    - split; [exact Hbusy|]. exists []. rewrite app_nil_r. split; [done|].
      apply not_elem_of_nil. }
  destruct HI as (Hflag & evs & Htr & Hno). split; [exact Hflag|].
  unfold eventsSince. by rewrite Htr, drop_app_length.
Qed.

(** X12: from any state of the manager, a run of the scheduler loop
    launches at most one worker per library ID, however many ticks it
    makes and however often the ID occurs in the lists the store returns;
    and every ID it has launched has its flag false at the end. *)
Theorem no_library_is_launched_twice ticks m :
  NoDup (launchedIDs (eventsSince m (Start ticks m).2)) /\
  forall id, id ∈ launchedIDs (eventsSince m (Start ticks m).2) ->
             workerCompletedMap (Start ticks m).2 !! id = Some false.
Proof.
  pose (I := fun m' : Manager FileMetadata Settings World =>
    exists evs, trace m' = trace m ++ evs /\ NoDup (launchedIDs evs) /\
                forall id, id ∈ launchedIDs evs ->
                           workerCompletedMap m' !! id = Some false).
  assert (HI : I (Start ticks m).2).
  { apply (Start_keeps I); subst I; cbn beta.
    - intros m' w evs' Hq (evs & Htr & Hnd & Hflags).
      exists (evs ++ evs'). cbn. rewrite Htr, <- app_assoc. split; [done|].
      by rewrite launchedIDs_app, (launchedIDs_quiet _ Hq), app_nil_r.
    - intros lib m' (evs & Htr & Hnd & Hflags).
      destruct (checkLibrary_cases lib m')
        as [([_ Hfin] & _ & Hf & Ht)|(_ & _ & Hf & Ht)]; cbn zeta in *.
      + assert (Hnew : ID lib ∉ launchedIDs evs).
        { intros Hin. apply Hflags in Hin. unfold workerCompleted in Hfin.
          by rewrite Hin in Hfin. }
        exists (evs ++ [initiateLog lib; Go lib]).
        rewrite Ht, Htr, <- app_assoc. split; [done|].
        rewrite launchedIDs_app. cbn. split.
        * apply NoDup_app. split; [done|]. split; [|apply NoDup_singleton].
          intros x Hx Hx'. apply list_elem_of_singleton in Hx' as ->. done.
        * intros id Hin. rewrite Hf.
          destruct (decide (ID lib = id)) as [<-|Hne];
            [by rewrite lookup_insert_eq|].
          rewrite !lookup_insert_ne by done. apply Hflags.
          apply elem_of_app in Hin as [Hin|Hin]; [done|].
          apply list_elem_of_singleton in Hin. congruence.
      + exists evs. rewrite Ht. split; [done|]. split; [done|].
        intros id Hin. rewrite Hf.
        destruct (decide (ID lib = id)) as [<-|Hne].
        * rewrite lookup_insert_eq. unfold workerCompleted.
          by rewrite (Hflags _ Hin).
        * rewrite lookup_insert_ne by done. by apply Hflags.
    - exists []. rewrite app_nil_r. split; [done|]. split; [constructor|].
      intros id Hin. by apply elem_of_nil in Hin. }
  destruct HI as (evs & Htr & Hnd & Hflags).
  unfold eventsSince. by rewrite Htr, drop_app_length.
Qed.

(** X13: when the context is finished at the top of the loop, [Start]
    returns at once: it does not call the data store, launches nothing,
    records nothing and leaves both maps as they were. *)
Theorem finished_context_stops_the_loop ticks m w :
  IsContextFinished (world m) = (true, w) ->
  eventsSince m (Start ticks m).2 = [] /\
  lastCheckedTimes (Start ticks m).2 = lastCheckedTimes m /\
  workerCompletedMap (Start ticks m).2 = workerCompletedMap m.
Proof.
  intros Hfin. destruct ticks as [|ticks].
  - cbn. unfold eventsSince. by rewrite drop_all.
  - rewrite Start_step, Hfin. cbn. unfold eventsSince. by rewrite drop_all.
Qed.

(** The events of a run of the loop. *)
Lemma Start_events ticks m :
  exists evs,
    trace (Start ticks m).2 = trace m ++ evs /\
    (librariesCalls evs <= ticks)%nat /\
    sleeps evs = replicate (librariesCalls evs) time.Second /\
    ((forall w, (IsContextFinished w).1 = false) -> librariesCalls evs = ticks).
Proof.
  revert m; induction ticks as [|ticks IH]; intros m.
  - exists []. cbn. rewrite app_nil_r. repeat split. lia.
  - rewrite Start_step.
    destruct (IsContextFinished (world m)) as [[|] w] eqn:Hfin; cbn [fst snd].
    + exists []. cbn. rewrite app_nil_r. split; [done|]. split; [lia|].
      split; [done|]. intros Hnever. specialize (Hnever (world m)).
      rewrite Hfin in Hnever. discriminate.
    + destruct (tick_events (setWorld w m)) as (evs1 & Htr1 & Hc1 & Hs1 & _).
      destruct (IH (tick (setWorld w m)).2) as (evs2 & Htr2 & Hle & Hs2 & Hall).
      exists (evs1 ++ evs2). rewrite Htr2, Htr1. cbn [trace setWorld].
      rewrite <- app_assoc, librariesCalls_app, sleeps_app, Hc1, Hs1, Hs2.
      split; [done|]. split; [lia|]. split; [done|].
      intros Hnever. by rewrite (Hall Hnever).
Qed.

(** X14: the scheduler loop calls [Libraries] once per tick and sleeps
    one second after each call, whether the call failed or not; it makes
    at most the ticks it is followed for, and as long as the context is
    not finished it makes them all, store errors or not. *)
Theorem one_store_call_and_one_sleep_per_tick ticks m :
  let evs := eventsSince m (Start ticks m).2 in
  (librariesCalls evs <= ticks)%nat /\
  sleeps evs = replicate (librariesCalls evs) time.Second /\
  ((forall w, (IsContextFinished w).1 = false) -> librariesCalls evs = ticks).
Proof.
  destruct (Start_events ticks m) as (evs & Htr & Hrest).
  cbn zeta. unfold eventsSince. by rewrite Htr, drop_app_length.
Qed.

(** X15: the scheduler loop keeps the two maps on the same keys: started
    on a new manager it has, after any number of ticks, a last-checked
    time for exactly the libraries it has a worker-completed flag for. *)
Theorem maps_have_the_same_keys ticks (w : World) :
  sameKeys (Start ticks
              (NewManager (FileMetadata:=FileMetadata) (Settings:=Settings) w)).2.
Proof.
  apply Start_keeps.
  - intros m w' evs _ Hm. exact Hm.
  - intros lib m Hm id.
    destruct (checkLibrary_cases lib m)
      as [(_ & -> & -> & _)|(_ & -> & -> & _)]; cbn zeta;
      (destruct (decide (ID lib = id)) as [<-|Hne];
       [rewrite !lookup_insert_eq; split; eauto
       |rewrite !lookup_insert_ne by done; apply Hm]).
  - intros id. cbn. by rewrite !lookup_empty.
Qed.

(** X16: started on a new manager, the scheduler loop keeps the flag of a
    library false exactly when it has launched a worker for it, and has
    launched no library twice. *)
Theorem flag_is_false_iff_launched ticks (w : World) :
  oneWorkerEach (Start ticks
                   (NewManager (FileMetadata:=FileMetadata) (Settings:=Settings) w)).2.
Proof.
  apply Start_keeps.
  - intros m w' evs Hq [Hnd Hiff]. unfold oneWorkerEach.
    cbn [trace advance workerCompletedMap].
    by rewrite launchedIDs_app, (launchedIDs_quiet _ Hq), app_nil_r.
  - intros lib m [Hnd Hiff]. unfold oneWorkerEach.
    destruct (checkLibrary_cases lib m)
      as [([_ Hfin] & _ & -> & ->)|(_ & _ & -> & ->)]; cbn zeta in *.
    + assert (Hnew : ID lib ∉ launchedIDs (trace m)).
      { intros Hin. apply Hiff in Hin. unfold workerCompleted in Hfin.
        by rewrite Hin in Hfin. }
      rewrite launchedIDs_app. cbn. split.
      * apply NoDup_app. split; [done|]. split; [|apply NoDup_singleton].
        intros x Hx Hx'. apply list_elem_of_singleton in Hx' as ->. done.
      * intros id. rewrite elem_of_app, list_elem_of_singleton.
        destruct (decide (ID lib = id)) as [<-|Hne].
        -- rewrite lookup_insert_eq. split; auto.
        -- rewrite !lookup_insert_ne by done. rewrite <- Hiff.
           split; [intros [?|?]; [done|congruence] | auto].
    + split; [done|]. intros id.
      destruct (decide (ID lib = id)) as [<-|Hne].
      * rewrite lookup_insert_eq, Hiff. unfold workerCompleted.
        destruct (workerCompletedMap m !! ID lib) as [[|]|]; cbn;
          split; congruence.
      * by rewrite lookup_insert_ne.
  - split; [constructor|]. intros id. cbn. rewrite lookup_empty.
    split; [intros Hin; by apply elem_of_nil in Hin | discriminate].
Qed.

(** *** The loop body and the worker together *)

(** X17: once a worker has ended, its library can be launched again: the
    first loop body that finds the interval elapsed since the last check
    launches a worker for that ID, whatever the flag was before the worker
    ran. *)
Theorem finished_worker_can_be_launched_again lib lib' m :
  ID lib' = ID lib ->
  let m1 := (updateLibraryQueue lib m).2 in
  (FsCheckInterval lib' <
   time.Sub (Now (world m1)).1 (lastChecked m1 (ID lib)))%Z ->
  eventsSince m1 (checkLibrary lib' m1).2 = [initiateLog lib'; Go lib'].
Proof.
  intros Hid m1 Hdue.
  destruct (checkLibrary_events lib' m1) as [Hlaunch _].
  apply Hlaunch. rewrite Hid. split; [exact Hdue|].
  destruct (updateLibraryQueue_maps lib m) as (_ & Hflags & _).
  unfold workerCompleted. subst m1. cbn zeta in Hflags.
  by rewrite Hflags, lookup_insert_eq.
Qed.

(** X18: the loop body for one library leaves the entries of every other
    library in both maps as they were; and when it launches no worker, the
    last-checked time and the flag the scheduler works with for the
    library itself are unchanged too. *)
Theorem loop_body_leaves_other_libraries_alone lib m :
  let m2 := (checkLibrary lib m).2 in
  (forall id, id <> ID lib ->
     lastCheckedTimes m2 !! id = lastCheckedTimes m !! id /\
     workerCompletedMap m2 !! id = workerCompletedMap m !! id) /\
  (Go lib ∉ eventsSince m m2 ->
     lastChecked m2 (ID lib) = lastChecked m (ID lib) /\
     workerCompleted m2 (ID lib) = workerCompleted m (ID lib)).
Proof.
  cbn zeta.
  destruct (checkLibrary_cases lib m)
    as [(_ & Ht & Hf & Htr)|(_ & Ht & Hf & Htr)]; cbn zeta in *.
  - split.
    + intros id Hne. rewrite Ht, Hf. by rewrite !lookup_insert_ne.
    + intros Hno. exfalso. apply Hno. unfold eventsSince.
      rewrite Htr, drop_app_length. repeat constructor.
  - split.
    + intros id Hne. rewrite Ht, Hf. by rewrite !lookup_insert_ne.
    + intros _. unfold lastChecked, workerCompleted at 1.
      by rewrite Ht, Hf, !lookup_insert_eq.
Qed.

(** X19: after a tick on which the data store answered, every library of
    the list has a last-checked time and a worker-completed flag. *)
Theorem tick_registers_fetched_libraries m allLibraries w lib :
  Libraries (world m) = ((allLibraries, None), w) ->
  lib ∈ allLibraries ->
  is_Some (lastCheckedTimes (tick m).2 !! ID lib) /\
  is_Some (workerCompletedMap (tick m).2 !! ID lib).
Proof.
  intros Hlibs Hin. rewrite (tick_checks_libraries _ _ _ Hlibs). cbn [snd].
  cbn [lastCheckedTimes workerCompletedMap record].
  pose (I := fun m' : Manager FileMetadata Settings World =>
    is_Some (lastCheckedTimes m' !! ID lib) /\
    is_Some (workerCompletedMap m' !! ID lib)).
  assert (Hkeep : forall lib' m', I m' -> I (checkLibrary lib' m').2).
  { subst I. cbn beta. intros lib' m' [Ht Hf].
    destruct (checkLibrary_cases lib' m')
      as [(_ & -> & -> & _)|(_ & -> & -> & _)]; cbn zeta;
      (destruct (decide (ID lib' = ID lib)) as [->|Hne];
       [rewrite !lookup_insert_eq; eauto
       |by rewrite !lookup_insert_ne]). }
  generalize (advance w [CallLibraries] m). clear Hlibs.
  induction allLibraries as [|lib0 libs IH]; intros m0;
    [by apply elem_of_nil in Hin|].
  rewrite checkLibraries_cons.
  apply elem_of_cons in Hin as [->|Hin]; [|by apply IH].
  apply (checkLibraries_keeps I Hkeep). subst I. cbn beta.
  destruct (checkLibrary_cases lib0 m0)
    as [(_ & -> & -> & _)|(_ & -> & -> & _)]; cbn zeta;
    rewrite !lookup_insert_eq; eauto.
Qed.

Lemma Sub_positive (t u : time.Time) : (u < t)%Z -> (0 < time.Sub t u)%Z.
Proof.
  intros Hlt. unfold time.Sub, time.maxDuration, time.minDuration.
  destruct (Z.ltb_spec (2 ^ 63 - 1) (t - u)); [lia|].
  destruct (Z.ltb_spec (t - u) (- 2 ^ 63)); lia.
Qed.

(** X20: the interval is not clamped: a library whose [FsCheckInterval]
    is zero or negative is launched by every loop body that finds its
    worker completed and the clock past its last check. *)
Theorem nonpositive_interval_is_always_due lib m :
  (FsCheckInterval lib <= 0)%Z ->
  workerCompleted m (ID lib) = true ->
  (lastChecked m (ID lib) < (Now (world m)).1)%Z ->
  eventsSince m (checkLibrary lib m).2 = [initiateLog lib; Go lib].
Proof.
  intros Hint Hfin Hclock.
  destruct (checkLibrary_events lib m) as [Hlaunch _].
  apply Hlaunch. split; [|exact Hfin].
  pose proof (Sub_positive _ _ Hclock). lia.
Qed.

(** *** The entry points that are not implemented *)

Lemma enter_unfold (c : EntryCall) m :
  enter c m = ((), advance (world m) [Logged Critical "Not implemented" []] m).
Proof. by destruct c. Qed.

(** X21: the five entry points of the job-dispatch API do nothing but
    log: any sequence of calls of them leaves the world (so the stored
    libraries and their queues) and both maps of the manager as they were
    and records one "Not implemented" line at critical level per call;
    [LibrarySettings], [LibraryQueues] and [PopNewJob] return the nil
    slices and the zero job whatever the store holds. *)
Theorem entry_points_only_log (cs : list EntryCall) m :
  enterAll cs m =
    ((), advance (world m)
           (replicate (length cs) (Logged Critical "Not implemented" [])) m)
  /\ (LibrarySettings m).1 = []
  /\ (LibraryQueues m).1 = []
  /\ (PopNewJob m).1 = zeroJob.
Proof.
  split; [|done]. unfold enterAll.
  revert m; induction cs as [|c cs IH]; intros m.
  - cbn. unfold advance. rewrite app_nil_r. by destruct m.
  - rewrite forRange_cons, enter_unfold. cbn [fst snd]. rewrite IH.
    unfold advance. cbn. by rewrite <- app_assoc.
Qed.
End Coverage.


(** ** The further properties on the in-memory world *)

Import Outage.

Lemma decider_error_witness :
  forRange processVideo
    (["/movies/a.mkv"] ++ "/movies/b.mkv" :: ["/movies/c.mkv"])
    plainLibrary (NewManager declinedWorld) =
  forRange processVideo ["/movies/c.mkv"]
    (forRange processVideo ["/movies/a.mkv"] plainLibrary
       (NewManager declinedWorld)).1
    (advance (setLibraries [] (setUUIDs ["u2"; "u3"] declinedWorld))
       ([CallIsPathDispatched "/movies/b.mkv"; CallRead "/movies/b.mkv"]
        ++ readLog "/movies/b.mkv" None
        ++ [CallDecide "metadata of /movies/b.mkv" "hevc";
            Logged Debug "Skipping %v because CommandDecider returned error: %v"
              [ArgString "/movies/b.mkv"; ArgString "no work needed"]])
       (forRange processVideo ["/movies/a.mkv"] plainLibrary
          (NewManager declinedWorld)).2)
  /\ queuePaths
       (Queue (forRange processVideo threeFiles plainLibrary
                 (NewManager declinedWorld)).1)
     = ["/movies/a.mkv"; "/movies/c.mkv"].
Proof.
  split; [|reflexivity].
  eapply (decider_error_skips_one_path ["/movies/a.mkv"] "/movies/b.mkv"
            ["/movies/c.mkv"] plainLibrary (NewManager declinedWorld));
    reflexivity.
Defined.

Lemma known_path_witness :
  forRange processVideo
    ([] ++ "/movies/a.mkv" :: ["/movies/b.mkv"]) plainLibrary busyManager =
  forRange processVideo ["/movies/b.mkv"]
    (forRange processVideo [] plainLibrary busyManager).1
    (advance busyWorld [CallIsPathDispatched "/movies/a.mkv"]
       (forRange processVideo [] plainLibrary busyManager).2).
Proof.
  apply (known_path_costs_one_query [] "/movies/a.mkv" ["/movies/b.mkv"]
           plainLibrary busyManager true busyWorld);
    [reflexivity | reflexivity | by left].
Defined.

Lemma discovery_error_witness :
  (updateLibraryQueue lostLibrary plainManager).1 = lostLibrary
  /\ eventsSince plainManager (updateLibraryQueue lostLibrary plainManager).2
     = [CallVideoFiles ""; Logged Error "no such directory" []]
  /\ world (updateLibraryQueue lostLibrary plainManager).2 = emptyWorld
  /\ lastCheckedTimes (updateLibraryQueue lostLibrary plainManager).2
     = lastCheckedTimes plainManager
  /\ workerCompletedMap (updateLibraryQueue lostLibrary plainManager).2
     = <[ID lostLibrary := true]> (workerCompletedMap plainManager).
Proof.
  apply (discovery_error_ends_the_scan lostLibrary plainManager []
           "no such directory" emptyWorld).
  reflexivity.
Defined.

Lemma added_jobs_witness :
  exists added,
    Queue (updateLibraryQueue maskedLibrary busyManager).1
    = Queue maskedLibrary ++ added /\
    queuePaths added `sublist_of` files busyWorld /\
    Forall (fun p => unmasked maskedLibrary p = true /\
                     p ∉ queuePaths (Queue maskedLibrary))
      (queuePaths added).
Proof.
  apply (added_jobs_are_for_discovered_unmasked_paths maskedLibrary busyManager
           (files busyWorld) busyWorld).
  reflexivity.
Defined.

Lemma every_push_is_saved_witness :
  length (Queue (updateLibraryQueue maskedLibrary busyManager).1) =
  (length (Queue maskedLibrary) +
   length (savedLibraries
             (eventsSince busyManager
                (updateLibraryQueue maskedLibrary busyManager).2)))%nat.
Proof.
  destruct (every_push_is_saved maskedLibrary busyManager (files busyWorld)
              busyWorld) as (Hlen & _); [reflexivity | exact Hlen].
Defined.

Lemma dispatch_queries_witness :
  dispatchQueries
    (eventsSince busyManager (updateLibraryQueue maskedLibrary busyManager).2)
  = List.filter (unmasked maskedLibrary) (files busyWorld).
Proof.
  apply (dispatch_queries_are_the_unmasked_paths maskedLibrary busyManager
           (files busyWorld) busyWorld).
  reflexivity.
Defined.

Lemma store_error_witness :
  @tick string string World downStore runtime priorityManager =
  ((), advance priorityWorld
         [CallLibraries; Logged Error "%v" [ArgString "store unavailable"];
          Sleep time.Second] priorityManager).
Proof.
  apply (@store_error_tick_launches_nothing string string World downStore
           runtime priorityManager [] "store unavailable" priorityWorld).
  reflexivity.
Defined.

Lemma launched_libraries_witness :
  launchedLibraries (eventsSince twiceManager (tick twiceManager).2)
  `sublist_of` [plainLibrary; libraryB; plainLibrary].
Proof.
  apply (launched_libraries_are_fetched_libraries twiceManager
           [plainLibrary; libraryB; plainLibrary] twiceWorld).
  reflexivity.
Defined.

Lemma busy_library_witness :
  workerCompletedMap (Start 3 inFlightManager).2 !! 1%Z = Some false
  /\ 1%Z ∉ launchedIDs (eventsSince inFlightManager (Start 3 inFlightManager).2).
Proof.
  apply (busy_library_is_not_launched 1%Z 3 inFlightManager). reflexivity.
Defined.

Lemma finished_context_witness :
  eventsSince priorityManager
    (@Start string string World dataStore cancelled 3 priorityManager).2 = []
  /\ lastCheckedTimes
       (@Start string string World dataStore cancelled 3 priorityManager).2
     = lastCheckedTimes priorityManager
  /\ workerCompletedMap
       (@Start string string World dataStore cancelled 3 priorityManager).2
     = workerCompletedMap priorityManager.
Proof.
  apply (@finished_context_stops_the_loop string string World dataStore
           cancelled 3 priorityManager priorityWorld).
  reflexivity.
Defined.

Lemma store_outage_ticks_witness :
  librariesCalls
    (eventsSince priorityManager
       (@Start string string World downStore runtime 3 priorityManager).2)
  = 3%nat.
Proof.
  destruct (@one_store_call_and_one_sleep_per_tick string string World
              downStore runtime 3 priorityManager) as (_ & _ & Hall).
  apply Hall. intros w. reflexivity.
Defined.

Lemma finished_worker_witness :
  eventsSince (updateLibraryQueue libraryA inFlightManager).2
    (checkLibrary plainLibrary (updateLibraryQueue libraryA inFlightManager).2).2
  = [initiateLog plainLibrary; Go plainLibrary].
Proof.
  apply (finished_worker_can_be_launched_again libraryA plainLibrary
           inFlightManager); [reflexivity | by vm_compute].
Defined.

Lemma tick_registers_witness :
  is_Some (lastCheckedTimes (tick priorityManager).2 !! ID libraryB)
  /\ is_Some (workerCompletedMap (tick priorityManager).2 !! ID libraryB).
Proof.
  apply (tick_registers_fetched_libraries priorityManager [libraryA; libraryB]
           priorityWorld libraryB); [reflexivity | repeat constructor].
Defined.

Lemma nonpositive_interval_witness :
  eventsSince plainManager (checkLibrary hastyLibrary plainManager).2
  = [initiateLog hastyLibrary; Go hastyLibrary].
Proof.
  apply (nonpositive_interval_is_always_due hastyLibrary plainManager);
    [by vm_compute | reflexivity | by vm_compute].
Defined.
